(** * ParkSpot client data layer: geo math, listing store, search filter,
      location session and auth session.

    Shallow embedding of the TypeScript sources
      - model/services/parkingSpots.ts  (Firestore service, Haversine)
      - services/firebase (storage.ts part: image cleanup)
      - context/ParkingSpotsContext.tsx (ListingStore)
      - context/LocationContext.tsx     (LocationSession)
      - screens/Search/SearchScreen.tsx (SearchFilterEngine)
      - screens/Home/HomeMapScreen.tsx  (the search effect of the map)
      - services/firebase/auth.ts, context/AuthContext.tsx (SessionStore)

    JavaScript numbers are IEEE-754 binary64 values: they are modelled by
    Rocq's primitive floats, so that [<=], [-], [Infinity], [NaN] and the
    truthiness of a number behave as they do in the engine.  The
    transcendental functions of [Math] are implementation-approximated in
    ECMAScript; they are an interface ([Math.Impl]) whose guaranteed
    properties are stated as a class of laws ([Math.Conforms]).

    Asynchronous functions are written in a state-and-exception monad
    ([Async]): [await] is bind, a rejected promise is [Rejected], and
    [try]/[catch]/[finally] are combinators. *)

From Stdlib Require Import ZArith List Bool Floats Lia Ascii String Sorted.
From stdpp Require Import base option list gmap strings.
Import ListNotations.

Set Warnings "-inexact-float".

(* ================================================================== *)
(** * Part I: the program *)
(* ================================================================== *)

(** ** JavaScript values used by the sources *)

Module JS.

Definition number := float.

Definition Infinity : number := infinity.

(** [ToBoolean] on a number: [+0], [-0] and [NaN] are falsy. *)
Definition truthy (x : number) : bool :=
  negb (PrimFloat.eqb x 0%float || PrimFloat.is_nan x).

(** [x || d] where [x : number | null]. *)
Definition number_or (x : option number) (d : number) : number :=
  match x with
  | Some v => if truthy v then v else d
  | None => d
  end.

(** [s || d] where [s : string | null | undefined]: the empty string is
    falsy. *)
Definition string_or (s : option string) (d : string) : string :=
  match s with
  | Some v => if String.eqb v "" then d else v
  | None => d
  end.

(** [s || undefined]. *)
Definition string_or_undefined (s : option string) : option string :=
  match s with
  | Some v => if String.eqb v "" then None else Some v
  | None => None
  end.

(** A [Date] is its time value ([getTime()]), a number of milliseconds. *)
Definition Date := number.

(** [String.prototype.toLowerCase], on the ASCII range. *)
Definition lower_ascii (c : ascii) : ascii :=
  let n := Ascii.nat_of_ascii c in
  if (65 <=? n)%nat && (n <=? 90)%nat then Ascii.ascii_of_nat (n + 32) else c.

Fixpoint toLowerCase (s : string) : string :=
  match s with
  | EmptyString => EmptyString
  | String c s' => String (lower_ascii c) (toLowerCase s')
  end.

(** [String.prototype.includes]. *)
Fixpoint includes (s q : string) : bool :=
  if String.prefix q s then true
  else match s with
       | EmptyString => false
       | String _ s' => includes s' q
       end.

(** The white space of the ASCII range (tab to carriage return, and
    space): like [toLowerCase], [trim] is modelled on that range. *)
Definition is_white_space (c : ascii) : bool :=
  let n := Ascii.nat_of_ascii c in
  (n =? 32)%nat || ((9 <=? n)%nat && (n <=? 13)%nat).

Fixpoint trimStart (s : string) : string :=
  match s with
  | String c s' => if is_white_space c then trimStart s' else s
  | EmptyString => EmptyString
  end.

(** [s.trim()] is truthy exactly when [s] has a non white-space
    character, i.e. when trimming the start leaves something. *)
Definition trim_truthy (s : string) : bool :=
  negb (String.eqb (trimStart s) "").

(** [email.split('@')[0]]: the characters before the first ['@']. *)
Fixpoint split_at_head (s : string) : string :=
  match s with
  | EmptyString => EmptyString
  | String c s' => if Ascii.eqb c "@"%char then EmptyString else String c (split_at_head s')
  end.

(** [[a, b].filter(Boolean).join(' ')] on nullable strings. *)
Definition join_truthy (parts : list (option string)) : string :=
  let keep := List.flat_map
                (fun p => match string_or_undefined p with Some v => [v] | None => [] end)
                parts in
  String.concat " " keep.

(** [Array.prototype.sort(comparefn)].  ECMAScript requires the sort to be
    stable and reads only the sign of [comparefn(a, b)], a [NaN] result
    counting as [+0].  For a consistent comparator every conforming
    engine returns the list computed here: a stable insertion sort in
    which [a] moves behind [b] exactly when [comparefn(a, b) > 0]. *)
Section Sort.
Context {A : Type}.
Variable comparefn : A -> A -> number.

Definition comes_after (a b : A) : bool := PrimFloat.ltb 0%float (comparefn a b).

Fixpoint insert (x : A) (l : list A) : list A :=
  match l with
  | [] => [x]
  | y :: l' => if comes_after x y then y :: insert x l' else x :: l
  end.

Definition sort (l : list A) : list A := List.fold_right insert [] l.

End Sort.

(** The string made of one double quote. *)
Definition dquote : string := String "034"%char EmptyString.

(** An [Error] object: its optional [code] and its [message]. *)
Record Error := { code : option string; message : string }.

Definition new_Error (msg : string) : Error := {| code := None; message := msg |}.

End JS.

(** ** The [Math] object *)

Module Math.

Definition PI : JS.number := 0x1.921fb54442d18p+1%float.

Definition sqrt : JS.number -> JS.number := PrimFloat.sqrt.

(** The implementation-approximated functions the sources call. *)
Record Impl := {
  sin : JS.number -> JS.number;
  cos : JS.number -> JS.number;
  atan2 : JS.number -> JS.number -> JS.number
}.

(** What the development relies on.  [sin_zero] and [atan2_zero] are
    mandated by ECMAScript ([Math.sin(+0)] is [+0]; [Math.atan2(+0, x)] is
    [+0] for [x > 0]); [sin_odd] and [cos_range] hold for the fdlibm-style
    implementations engines ship. *)
Record Conforms (M : Impl) : Prop := {
  sin_zero : sin M 0%float = 0%float;
  sin_odd : forall x, sin M (- x)%float = (- sin M x)%float;
  cos_range : forall x, PrimFloat.is_finite x = true ->
                PrimFloat.leb (PrimFloat.abs (cos M x)) 1%float = true;
  atan2_zero : atan2 M 0%float 1%float = 0%float
}.

(** An executable instance, used to run the sources on sample data: the
    small-angle approximations [sin x ~ x], [cos x ~ 1], [atan2 y x ~ y/x]. *)
Definition smallAngle : Impl :=
  {| sin := fun x => x;
     cos := fun _ => 1%float;
     atan2 := fun y x => (y / x)%float |}.

End Math.

(** ** constants/types.ts *)

Module UserRole.
Inductive t := USER | HOMEOWNER.
Definition value (r : t) : string :=
  match r with USER => "user" | HOMEOWNER => "homeowner" end.
End UserRole.

Module User.
Record t := {
  uid : string;
  email : string;
  name : string;
  role : UserRole.t;
  photoURL : option string;
  phone : option string;
  createdAt : JS.Date;
  updatedAt : JS.Date
}.
End User.

Module Location.
Record t := {
  latitude : JS.number;
  longitude : JS.number;
  address : option string;
  city : option string;
  state : option string;
  zipCode : option string
}.
End Location.

Module SpotType.
Inductive t := DRIVEWAY | GARAGE | CARPORT | STREET | LOT | OTHER.
Definition value (s : t) : string :=
  match s with
  | DRIVEWAY => "driveway" | GARAGE => "garage" | CARPORT => "carport"
  | STREET => "street" | LOT => "lot" | OTHER => "other"
  end.
End SpotType.

Module Amenity.
Inductive t :=
  COVERED | GATED | WELL_LIT | SECURITY_CAMERA | EV_CHARGING
| HANDICAP_ACCESSIBLE | WIDE_SPACE | NEARBY_RESTROOM.
End Amenity.

Module AvailabilitySchedule.
Record day := { start : string; end_ : string; available : bool }.
Record t := {
  monday : day; tuesday : day; wednesday : day; thursday : day;
  friday : day; saturday : day; sunday : day
}.
End AvailabilitySchedule.

Module ParkingSpot.
Record t := {
  id : string;
  ownerId : string;
  ownerName : string;
  title : string;
  description : string;
  location : Location.t;
  pricePerHour : JS.number;
  pricePerDay : option JS.number;
  imageURLs : list string;
  isAvailable : bool;
  availabilitySchedule : option AvailabilitySchedule.t;
  spotType : SpotType.t;
  amenities : list Amenity.t;
  rating : option JS.number;
  reviewCount : option JS.number;
  createdAt : JS.Date;
  updatedAt : JS.Date
}.
End ParkingSpot.

(** ** services/parkingSpots.ts: [calculateDistance] (Haversine) *)

Module Geo.
Section WithMath.
Variable M : Math.Impl.
Local Open Scope float_scope.

Definition toRad (deg : JS.number) : JS.number := deg * (Math.PI / 180).

Definition calculateDistance (lat1 lon1 lat2 lon2 : JS.number) : JS.number :=
  let R := 6371 in
  let dLat := toRad (lat2 - lat1) in
  let dLon := toRad (lon2 - lon1) in
  let a :=
    Math.sin M (dLat / 2) * Math.sin M (dLat / 2) +
    Math.cos M (toRad lat1) * Math.cos M (toRad lat2) *
    Math.sin M (dLon / 2) * Math.sin M (dLon / 2) in
  let c := 2 * Math.atan2 M (Math.sqrt a) (Math.sqrt (1 - a)) in
  R * c.

End WithMath.
End Geo.

(** ** screens/Search/SearchScreen.tsx: the [filteredSpots] memo *)

Module SearchScreen.

Inductive SortBy := distance | price | rating.

Section FilteredSpots.
(** The values the memo depends on; [userLocation] and [calculateDistance]
    come from the location context. *)
Variable spots : list ParkingSpot.t.
Variable searchQuery : string.
Variable maxPrice : JS.number.
Variable maxDistance : JS.number.
Variable selectedSpotTypes : list string.
Variable sortBy : SortBy.
Variable userLocation : option Location.t.
Variable calculateDistance : Location.t -> option JS.number.

(** [s?.toLowerCase().includes(query)], [undefined] counting as false. *)
Definition opt_includes (s : option string) (query : string) : bool :=
  match s with
  | Some v => JS.includes (JS.toLowerCase v) query
  | None => false
  end.

Definition matchesQuery (query : string) (spot : ParkingSpot.t) : bool :=
  JS.includes (JS.toLowerCase (ParkingSpot.title spot)) query
  || JS.includes (JS.toLowerCase (ParkingSpot.description spot)) query
  || opt_includes (Location.address (ParkingSpot.location spot)) query
  || opt_includes (Location.city (ParkingSpot.location spot)) query.

Definition byQuery (results : list ParkingSpot.t) : list ParkingSpot.t :=
  if JS.trim_truthy searchQuery
  then List.filter (matchesQuery (JS.toLowerCase searchQuery)) results
  else results.

Definition withinPrice (spot : ParkingSpot.t) : bool :=
  PrimFloat.leb (ParkingSpot.pricePerHour spot) maxPrice.

Definition byPrice (results : list ParkingSpot.t) : list ParkingSpot.t :=
  List.filter withinPrice results.

Definition withinDistance (spot : ParkingSpot.t) : bool :=
  match calculateDistance (ParkingSpot.location spot) with
  | Some d => PrimFloat.leb d maxDistance
  | None => false
  end.

Definition byDistance (results : list ParkingSpot.t) : list ParkingSpot.t :=
  match userLocation with
  | Some _ => List.filter withinDistance results
  | None => results
  end.

Definition includes_str (l : list string) (s : string) : bool :=
  List.existsb (String.eqb s) l.

Definition ofSelectedType (spot : ParkingSpot.t) : bool :=
  includes_str selectedSpotTypes (SpotType.value (ParkingSpot.spotType spot)).

Definition bySpotType (results : list ParkingSpot.t) : list ParkingSpot.t :=
  if negb (includes_str selectedSpotTypes "all")
  then List.filter ofSelectedType results
  else results.

Definition compareSpots (a b : ParkingSpot.t) : JS.number :=
  match sortBy with
  | price => (ParkingSpot.pricePerHour a - ParkingSpot.pricePerHour b)%float
  | rating =>
      (JS.number_or (ParkingSpot.rating b) 0 - JS.number_or (ParkingSpot.rating a) 0)%float
  | distance =>
      match userLocation with
      | None => 0%float
      | Some _ =>
          let distA := JS.number_or (calculateDistance (ParkingSpot.location a)) JS.Infinity in
          let distB := JS.number_or (calculateDistance (ParkingSpot.location b)) JS.Infinity in
          (distA - distB)%float
      end
  end.

Definition filteredSpots : list ParkingSpot.t :=
  JS.sort compareSpots (bySpotType (byDistance (byPrice (byQuery spots)))).

End FilteredSpots.
End SearchScreen.

(** ** screens/Home/HomeMapScreen.tsx: the search effect *)

Module HomeMapScreen.

(** What the effect passes to [setFilteredSpots] and [setIsSearching]. *)
Definition searchEffect (searchQuery : string) (spots : list ParkingSpot.t)
  (userLocation : option Location.t)
  (calculateDistance : Location.t -> option JS.number)
  : list ParkingSpot.t * bool :=
  if JS.trim_truthy searchQuery then
    let query := JS.toLowerCase searchQuery in
    let results := List.filter (SearchScreen.matchesQuery query) spots in
    (* Sort by distance if user location is available *)
    let results :=
      match userLocation with
      | Some _ =>
          JS.sort
            (fun a b =>
               let distA := JS.number_or (calculateDistance (ParkingSpot.location a))
                              JS.Infinity in
               let distB := JS.number_or (calculateDistance (ParkingSpot.location b))
                              JS.Infinity in
               (distA - distB)%float)
            results
      | None => results
      end in
    (results, true)
  else ([], false).

End HomeMapScreen.

(** ** Asynchronous code: promises as a state-and-exception monad *)

Module Async.

Inductive outcome (A : Type) :=
| Resolved (a : A)
| Rejected (e : JS.Error).
Arguments Resolved {A} a.
Arguments Rejected {A} e.

Definition t (S A : Type) : Type := S -> outcome A * S.

Definition ret {S A} (a : A) : t S A := fun s => (Resolved a, s).

Definition throw {S A} (e : JS.Error) : t S A := fun s => (Rejected e, s).

Definition bind {S A B} (m : t S A) (k : A -> t S B) : t S B :=
  fun s =>
    match m s with
    | (Resolved a, s') => k a s'
    | (Rejected e, s') => (Rejected e, s')
    end.

(** [try { m } catch (e) { h e }]. *)
Definition try_catch {S A} (m : t S A) (h : JS.Error -> t S A) : t S A :=
  fun s =>
    match m s with
    | (Resolved a, s') => (Resolved a, s')
    | (Rejected e, s') => h e s'
    end.

(** [try { m } finally { f }]: [f] always runs; the completion of [m] is
    kept unless [f] itself throws. *)
Definition try_finally {S A} (m : t S A) (f : t S unit) : t S A :=
  fun s =>
    let (r, s') := m s in
    match f s' with
    | (Resolved _, s'') => (r, s'')
    | (Rejected e, s'') => (Rejected e, s'')
    end.

Definition get {S} : t S S := fun s => (Resolved s, s).

Definition modify {S} (f : S -> S) : t S unit := fun s => (Resolved tt, f s).

(** Run a computation on the first component of a pair of states. *)
Definition on_fst {S T A} (m : t S A) : t (S * T) A :=
  fun st => let (r, s') := m (fst st) in (r, (s', snd st)).

Definition modify_snd {S T} (f : T -> T) : t (S * T) unit :=
  modify (fun st => (fst st, f (snd st))).

Definition get_snd {S T} : t (S * T) T := fun st => (Resolved (snd st), st).

(** [await Promise.all(ps)] for promises started in list order: every
    one runs to completion, and the first rejection (if any) is the
    rejection of the whole. *)
Fixpoint all {S A} (ps : list (t S A)) : t S (list A) :=
  match ps with
  | [] => ret []
  | p :: ps' =>
      fun s =>
        let (r, s1) := p s in
        let (rs, s2) := all ps' s1 in
        match r, rs with
        | Resolved a, Resolved l => (Resolved (a :: l), s2)
        | Rejected e, _ => (Rejected e, s2)
        | Resolved _, Rejected e => (Rejected e, s2)
        end
  end.

End Async.

Declare Scope async_scope.
Delimit Scope async_scope with async.
Notation "'let*' x ':=' m 'in' k" := (Async.bind m (fun x => k))
  (at level 10, x name, m at level 100, k at level 200) : async_scope.
Notation "m ';;' k" := (Async.bind m (fun _ => k))
  (at level 100, k at level 200, right associativity) : async_scope.

(** ** The Firebase backend: Auth, Firestore, Storage *)

Module Firebase.
Local Open Scope async_scope.

(** A field value of a Firestore document or of an update object.  A
    location object is given by how it reads ([l]) and by the names of
    its optional properties that are present with the value [undefined]
    (they read as absent, but Firestore does not accept them). *)
Inductive Value :=
| VUndefined
| VString (s : string)
| VNumber (n : JS.number)
| VBool (b : bool)
| VDate (d : JS.Date)
| VServerTimestamp
| VStrings (l : list string)
| VLocation (l : Location.t) (undefinedProps : list string)
| VSchedule (s : AvailabilitySchedule.t)
| VSpotType (s : SpotType.t)
| VAmenities (l : list Amenity.t).

(** A JavaScript object seen as a map from property names to values:
    [Partial<ParkingSpot>] (cast to [any]) and Firestore's
    [DocumentData]. *)
Abbreviation DocumentData := (gmap string Value).

Module FirebaseUser.
Record t := {
  uid : string;
  email : option string;
  displayName : option string;
  photoURL : option string
}.
End FirebaseUser.

Record Account := {
  account_email : string;
  account_password : string;
  account_user : FirebaseUser.t
}.

(** A document of the [users] collection, as [getUserData] reads it. *)
Module UserDoc.
Record t := {
  email : string;
  name : string;
  role : UserRole.t;
  photoURL : option string;
  phone : option string;
  createdAt : option JS.Date;
  updatedAt : option JS.Date
}.
End UserDoc.

Inductive Request :=
| SignInWithEmailAndPassword (email password : string)
| SignOut
| GetDoc (collection id : string)
| SetDoc (collection id : string)
| UpdateDoc (collection id : string) (payload : DocumentData)
| DeleteDoc (collection id : string)
| ListAll (path : string)
| DeleteObject (path : string).

Record Backend := {
  accounts : list Account;                 (* Firebase Auth user base *)
  currentUser : option FirebaseUser.t;     (* auth.currentUser *)
  users : gmap string UserDoc.t;           (* collection 'users' *)
  parkingSpots : gmap string DocumentData; (* collection 'parkingSpots' *)
  storage : list string;                   (* full paths of stored objects *)
  serverTime : JS.Date;                    (* value of serverTimestamp() *)
  requests : list Request;                 (* requests sent, oldest first *)
  faults : list (option JS.Error);         (* fate of the coming requests *)
  console : list string                    (* console.error / console.warn *)
}.

Definition set_currentUser (u : option FirebaseUser.t) (b : Backend) : Backend :=
  {| accounts := accounts b; currentUser := u; users := users b;
     parkingSpots := parkingSpots b; storage := storage b;
     serverTime := serverTime b; requests := requests b; faults := faults b;
     console := console b |}.

Definition set_users (f : gmap string UserDoc.t -> gmap string UserDoc.t)
  (b : Backend) : Backend :=
  {| accounts := accounts b; currentUser := currentUser b; users := f (users b);
     parkingSpots := parkingSpots b; storage := storage b;
     serverTime := serverTime b; requests := requests b; faults := faults b;
     console := console b |}.

Definition set_parkingSpots
  (f : gmap string DocumentData -> gmap string DocumentData) (b : Backend) : Backend :=
  {| accounts := accounts b; currentUser := currentUser b; users := users b;
     parkingSpots := f (parkingSpots b); storage := storage b;
     serverTime := serverTime b; requests := requests b; faults := faults b;
     console := console b |}.

Definition set_storage (f : list string -> list string) (b : Backend) : Backend :=
  {| accounts := accounts b; currentUser := currentUser b; users := users b;
     parkingSpots := parkingSpots b; storage := f (storage b);
     serverTime := serverTime b; requests := requests b; faults := faults b;
     console := console b |}.

Definition set_traffic (rs : list Request) (fs : list (option JS.Error))
  (b : Backend) : Backend :=
  {| accounts := accounts b; currentUser := currentUser b; users := users b;
     parkingSpots := parkingSpots b; storage := storage b;
     serverTime := serverTime b; requests := rs; faults := fs;
     console := console b |}.

Definition set_console (f : list string -> list string) (b : Backend) : Backend :=
  {| accounts := accounts b; currentUser := currentUser b; users := users b;
     parkingSpots := parkingSpots b; storage := storage b;
     serverTime := serverTime b; requests := requests b; faults := faults b;
     console := f (console b) |}.

(** Sending a request records it and consumes the head of the fault
    script: [Some e] makes the request fail with [e] before it has any
    effect; an exhausted script means no more faults. *)
Definition request (r : Request) : Async.t Backend unit :=
  fun b =>
    match faults b with
    | Some e :: fs => (Async.Rejected e, set_traffic (requests b ++ [r]) fs b)
    | None :: fs => (Async.Resolved tt, set_traffic (requests b ++ [r]) fs b)
    | [] => (Async.Resolved tt, set_traffic (requests b ++ [r]) [] b)
    end.

Definition console_log (msg : string) : Async.t Backend unit :=
  Async.modify (set_console (fun l => l ++ [msg])).

(** *** firebase/auth *)

Definition credentials_match (email password : string) (a : Account) : bool :=
  String.eqb (account_email a) email && String.eqb (account_password a) password.

Definition signInWithEmailAndPassword (email password : string)
  : Async.t Backend FirebaseUser.t :=
  request (SignInWithEmailAndPassword email password) ;;
  let* b := Async.get in
  match List.find (credentials_match email password) (accounts b) with
  | Some a =>
      Async.modify (set_currentUser (Some (account_user a))) ;;
      Async.ret (account_user a)
  | None =>
      Async.throw {| JS.code := Some "auth/invalid-credential";
                     JS.message := "Firebase: Error (auth/invalid-credential)." |}
  end.

Definition firebaseSignOut : Async.t Backend unit :=
  request SignOut ;;
  Async.modify (set_currentUser None).

(** *** firebase/firestore *)

Definition getDoc_users (uid : string) : Async.t Backend (option UserDoc.t) :=
  request (GetDoc "users" uid) ;;
  let* b := Async.get in
  Async.ret (users b !! uid).

Definition setDoc_users (uid : string) (doc : UserDoc.t) : Async.t Backend unit :=
  request (SetDoc "users" uid) ;;
  Async.modify (set_users (fun m => <[uid := doc]> m)).

(** The server replaces the [serverTimestamp()] sentinel on commit. *)
Definition commit (now : JS.Date) (v : Value) : Value :=
  match v with
  | VServerTimestamp => VDate now
  | _ => v
  end.

(** A value that Firestore refuses to write: [undefined], at the top
    level or inside a nested object.  (The app's configuration does not
    set [ignoreUndefinedProperties].) *)
Definition unsupported (v : Value) : bool :=
  match v with
  | VUndefined => true
  | VLocation _ (_ :: _) => true
  | _ => false
  end.

Definition has_undefined (payload : DocumentData) : bool :=
  List.existsb (fun kv => unsupported (snd kv)) (map_to_list payload).

(** [updateDoc] validates the payload before anything is sent: a payload
    with an [undefined] value makes it throw.  Otherwise it overwrites
    the top-level fields named by the payload and leaves the others; it
    fails when the document does not exist. *)
Definition updateDoc (spotId : string) (payload : DocumentData) : Async.t Backend unit :=
  if has_undefined payload then
    Async.throw
      {| JS.code := Some "invalid-argument";
         JS.message :=
           "Function updateDoc() called with invalid data. Unsupported field value: undefined" |}
  else
    request (UpdateDoc "parkingSpots" spotId payload) ;;
    let* b := Async.get in
    match parkingSpots b !! spotId with
    | Some doc =>
        Async.modify
          (set_parkingSpots
             (fun m => <[spotId := (commit (serverTime b) <$> payload) ∪ doc]> m))
    | None =>
        Async.throw {| JS.code := Some "not-found";
                       JS.message := "No document to update" |}
    end.

Definition deleteDoc (spotId : string) : Async.t Backend unit :=
  request (DeleteDoc "parkingSpots" spotId) ;;
  Async.modify (set_parkingSpots (fun m => base.delete spotId m)).

(** *** firebase/storage *)

Definition in_folder (folder path : string) : bool :=
  String.prefix (folder ++ "/") path.

(** What is left of [s] after the prefix [p], when [s] starts with [p]. *)
Fixpoint after_prefix (p s : string) : option string :=
  match p, s with
  | EmptyString, _ => Some s
  | String a p', String c s' => if Ascii.eqb a c then after_prefix p' s' else None
  | String _ _, EmptyString => None
  end.

(** An object directly in a folder: its path is the folder, a slash and
    a name without slash.  Objects further down belong to sub-folders. *)
Definition direct_child (folder path : string) : bool :=
  match after_prefix (folder ++ "/") path with
  | Some name => negb (JS.includes name "/")
  | None => false
  end.

(** [listAll(folder).items]: the objects directly in the folder (those
    of its sub-folders are reached through [prefixes], which the sources
    do not read). *)
Definition listAll (folder : string) : Async.t Backend (list string) :=
  request (ListAll folder) ;;
  let* b := Async.get in
  Async.ret (List.filter (direct_child folder) (storage b)).

Definition deleteObject (path : string) : Async.t Backend unit :=
  request (DeleteObject path) ;;
  let* b := Async.get in
  if List.existsb (String.eqb path) (storage b)
  then Async.modify (set_storage (List.filter (fun p => negb (String.eqb p path))))
  else Async.throw {| JS.code := Some "storage/object-not-found";
                      JS.message := "Object does not exist" |}.

End Firebase.

(** ** services/firebase/parkingSpots.ts *)

Module ParkingSpotsService.
Import Firebase.
Local Open Scope async_scope.

(** [data : any] as [convertDocToSpot] reads it: the fields it guards with
    [||], [??] or [?.] may be missing, the others are read as they are. *)
Module SpotData.
Record t := {
  ownerId : string;
  ownerName : string;
  title : string;
  description : string;
  location : Location.t;
  pricePerHour : JS.number;
  pricePerDay : option JS.number;
  imageURLs : option (list string);
  isAvailable : option bool;
  availabilitySchedule : option AvailabilitySchedule.t;
  spotType : SpotType.t;
  amenities : option (list Amenity.t);
  rating : option JS.number;
  reviewCount : option JS.number;
  createdAt : option JS.Date;      (* a Timestamp, read through toDate() *)
  updatedAt : option JS.Date
}.
End SpotData.

(** [now] is what [new Date()] returns during the call. *)
Definition convertDocToSpot (now : JS.Date) (docId : string) (data : SpotData.t)
  : ParkingSpot.t :=
  {| ParkingSpot.id := docId;
     ParkingSpot.ownerId := SpotData.ownerId data;
     ParkingSpot.ownerName := SpotData.ownerName data;
     ParkingSpot.title := SpotData.title data;
     ParkingSpot.description := SpotData.description data;
     ParkingSpot.location :=
       {| Location.latitude := Location.latitude (SpotData.location data);
          Location.longitude := Location.longitude (SpotData.location data);
          Location.address := Location.address (SpotData.location data);
          Location.city := Location.city (SpotData.location data);
          Location.state := Location.state (SpotData.location data);
          Location.zipCode := Location.zipCode (SpotData.location data) |};
     ParkingSpot.pricePerHour := SpotData.pricePerHour data;
     ParkingSpot.pricePerDay := SpotData.pricePerDay data;
     ParkingSpot.imageURLs := default [] (SpotData.imageURLs data);
     ParkingSpot.isAvailable := default true (SpotData.isAvailable data);
     ParkingSpot.availabilitySchedule := SpotData.availabilitySchedule data;
     ParkingSpot.spotType := SpotData.spotType data;
     ParkingSpot.amenities := default [] (SpotData.amenities data);
     ParkingSpot.rating := SpotData.rating data;
     ParkingSpot.reviewCount := SpotData.reviewCount data;
     ParkingSpot.createdAt := default now (SpotData.createdAt data);
     ParkingSpot.updatedAt := default now (SpotData.updatedAt data) |}.

(** [(a, b) => b.createdAt.getTime() - a.createdAt.getTime()]. *)
Definition newestFirst (a b : ParkingSpot.t) : JS.number :=
  (ParkingSpot.createdAt b - ParkingSpot.createdAt a)%float.

(** The [onNext] observer that [subscribeToSpots] hands to [onSnapshot]:
    what it passes to [onUpdate] for a snapshot.  [clock i] is the value
    of [new Date()] while the [i]-th document is converted. *)
Definition subscribeToSpots_onNext (clock : nat -> JS.Date)
  (docs : list (string * SpotData.t)) : list ParkingSpot.t :=
  JS.sort newestFirst
    (List.filter ParkingSpot.isAvailable
       (imap (fun i d => convertDocToSpot (clock i) (fst d) (snd d)) docs)).

(** The error observer: what it passes to [onError]. *)
Definition subscribeToSpots_onError (error : JS.Error) : JS.Error :=
  JS.new_Error "Failed to sync parking spots".

Definition updateParkingSpot (spotId : string) (data : DocumentData)
  : Async.t Backend unit :=
  Async.try_catch
    ((* const { id, createdAt, ...updateData } = data as any; *)
     let updateData := base.delete "createdAt" (base.delete "id" data) in
     updateDoc spotId (<["updatedAt" := VServerTimestamp]> updateData))
    (fun error =>
       console_log "Error updating parking spot:" ;;
       Async.throw (JS.new_Error "Failed to update parking spot")).

Definition deleteParkingSpot (spotId : string) : Async.t Backend unit :=
  Async.try_catch
    (deleteDoc spotId)
    (fun error =>
       console_log "Error deleting parking spot:" ;;
       Async.throw (JS.new_Error "Failed to delete parking spot")).

(** [searchParkingSpotsNearby]: the client-side filter it applies to
    [allSpots], the listings that [getAllParkingSpots] returned;
    [maxPrice] is optional, and [maxPrice ? ... : true] reads its
    truthiness. *)
Definition searchParkingSpotsNearby_filter (M : Math.Impl) (center : Location.t)
  (radiusKm : JS.number) (maxPrice : option JS.number)
  (allSpots : list ParkingSpot.t) : list ParkingSpot.t :=
  List.filter
    (fun spot =>
       let distance :=
         Geo.calculateDistance M
           (Location.latitude center) (Location.longitude center)
           (Location.latitude (ParkingSpot.location spot))
           (Location.longitude (ParkingSpot.location spot)) in
       let withinRadius := PrimFloat.leb distance radiusKm in
       let withinPrice :=
         match maxPrice with
         | Some p =>
             if JS.truthy p then PrimFloat.leb (ParkingSpot.pricePerHour spot) p else true
         | None => true
         end in
       withinRadius && withinPrice)
    allSpots.

End ParkingSpotsService.

(** ** services/firebase/storage.ts *)

Module StorageService.
Import Firebase.
Local Open Scope async_scope.

Definition deleteParkingSpotImages (spotId : string) : Async.t Backend unit :=
  Async.try_catch
    (let* items := listAll ("parkingSpots/" ++ spotId) in
     let* _ := Async.all (List.map deleteObject items) in
     Async.ret tt)
    (fun error =>
       (* Don't throw - folder might not exist *)
       console_log "Error deleting parking spot images:").

(** [deleteImage].  [ref(storage, url)] resolves the download URL to the
    stored object; the store names an object by its full path, so [url]
    stands here for the path the URL resolves to. *)
Definition deleteImage (url : string) : Async.t Backend unit :=
  Async.try_catch
    (deleteObject url)
    (fun error =>
       (* Don't throw - image might already be deleted *)
       console_log "Error deleting image:").

End StorageService.

(** ** context/ParkingSpotsContext.tsx *)

Module ParkingSpotsContext.
Import Firebase.
Local Open Scope async_scope.

Record State := {
  spots : list ParkingSpot.t;
  userSpots : list ParkingSpot.t;
  isLoading : bool;
  error : option string
}.

Definition setSpots (f : list ParkingSpot.t -> list ParkingSpot.t) (s : State) : State :=
  {| spots := f (spots s); userSpots := userSpots s;
     isLoading := isLoading s; error := error s |}.

Definition setUserSpots (f : list ParkingSpot.t -> list ParkingSpot.t) (s : State) : State :=
  {| spots := spots s; userSpots := f (userSpots s);
     isLoading := isLoading s; error := error s |}.

Definition setError (e : option string) (s : State) : State :=
  {| spots := spots s; userSpots := userSpots s;
     isLoading := isLoading s; error := e |}.

(** [{ ...spot, ...data, updatedAt: new Date() }].  A property of [data]
    replaces the field of the same name; an optional field given as
    [undefined] becomes absent.  A value outside the field's TypeScript
    type (which [Partial<ParkingSpot>] excludes) leaves the field as it
    is, and so does an [undefined] for a required field, which would
    make an entity that [ParkingSpot.t] cannot hold; in [updateSpot]
    such an object reaches the merge only through [id] or [createdAt],
    since the service refuses an [undefined] in any other field before
    the views are touched. *)
Definition assign (spot : ParkingSpot.t) (data : DocumentData) (now : JS.Date)
  : ParkingSpot.t :=
  let str k old := match data !! k with Some (VString s) => s | _ => old end in
  let num k old := match data !! k with Some (VNumber n) => n | _ => old end in
  let onum k old :=
    match data !! k with
    | Some (VNumber n) => Some n
    | Some VUndefined => None
    | _ => old
    end in
  {| ParkingSpot.id := str "id" (ParkingSpot.id spot);
     ParkingSpot.ownerId := str "ownerId" (ParkingSpot.ownerId spot);
     ParkingSpot.ownerName := str "ownerName" (ParkingSpot.ownerName spot);
     ParkingSpot.title := str "title" (ParkingSpot.title spot);
     ParkingSpot.description := str "description" (ParkingSpot.description spot);
     ParkingSpot.location :=
       match data !! "location" with
       | Some (VLocation l _) => l
       | _ => ParkingSpot.location spot
       end;
     ParkingSpot.pricePerHour := num "pricePerHour" (ParkingSpot.pricePerHour spot);
     ParkingSpot.pricePerDay := onum "pricePerDay" (ParkingSpot.pricePerDay spot);
     ParkingSpot.imageURLs :=
       match data !! "imageURLs" with
       | Some (VStrings l) => l
       | _ => ParkingSpot.imageURLs spot
       end;
     ParkingSpot.isAvailable :=
       match data !! "isAvailable" with
       | Some (VBool b) => b
       | _ => ParkingSpot.isAvailable spot
       end;
     ParkingSpot.availabilitySchedule :=
       match data !! "availabilitySchedule" with
       | Some (VSchedule s) => Some s
       | Some VUndefined => None
       | _ => ParkingSpot.availabilitySchedule spot
       end;
     ParkingSpot.spotType :=
       match data !! "spotType" with
       | Some (VSpotType s) => s
       | _ => ParkingSpot.spotType spot
       end;
     ParkingSpot.amenities :=
       match data !! "amenities" with
       | Some (VAmenities l) => l
       | _ => ParkingSpot.amenities spot
       end;
     ParkingSpot.rating := onum "rating" (ParkingSpot.rating spot);
     ParkingSpot.reviewCount := onum "reviewCount" (ParkingSpot.reviewCount spot);
     ParkingSpot.createdAt :=
       match data !! "createdAt" with
       | Some (VDate d) => d
       | _ => ParkingSpot.createdAt spot
       end;
     ParkingSpot.updatedAt := now |}.

(** [updateSpot]; [nowSpots] and [nowUserSpots] are the values of
    [new Date()] when the two state updaters run. *)
Definition updateSpot (nowSpots nowUserSpots : JS.Date) (spotId : string)
  (data : DocumentData) : Async.t (Backend * State) unit :=
  Async.try_catch
    (Async.on_fst (ParkingSpotsService.updateParkingSpot spotId data) ;;
     let updateLocalSpots now (spots : list ParkingSpot.t) :=
       List.map (fun spot =>
                   if String.eqb (ParkingSpot.id spot) spotId
                   then assign spot data now else spot) spots in
     Async.modify_snd (setSpots (updateLocalSpots nowSpots)) ;;
     Async.modify_snd (setUserSpots (updateLocalSpots nowUserSpots)))
    (fun err =>
       Async.modify_snd (setError (Some (JS.message err))) ;;
       Async.throw err).

Definition deleteSpot (spotId : string) : Async.t (Backend * State) unit :=
  Async.try_catch
    (Async.on_fst (ParkingSpotsService.deleteParkingSpot spotId) ;;
     let filterSpots (spots : list ParkingSpot.t) :=
       List.filter (fun spot => negb (String.eqb (ParkingSpot.id spot) spotId)) spots in
     Async.modify_snd (setSpots filterSpots) ;;
     Async.modify_snd (setUserSpots filterSpots))
    (fun err =>
       Async.modify_snd (setError (Some (JS.message err))) ;;
       Async.throw err).

(** [getSpotById]: a lookup in the local [spots] view. *)
Definition getSpotById (s : State) (spotId : string) : option ParkingSpot.t :=
  List.find (fun spot => String.eqb (ParkingSpot.id spot) spotId) (spots s).

End ParkingSpotsContext.

(** ** services/firebase/auth.ts *)

Module AuthService.
Import Firebase.
Local Open Scope async_scope.

(** [handleAuthError]: a user-facing [Error] for a Firebase auth error. *)
Definition handleAuthError (error : JS.Error) : JS.Error :=
  let message := "An error occurred. Please try again." in
  JS.new_Error
    (match JS.code error with
     | Some "auth/email-already-in-use" =>
         "This email is already registered. Please sign in instead."
     | Some "auth/invalid-email" => "Please enter a valid email address."
     | Some "auth/operation-not-allowed" => "Email/password accounts are not enabled."
     | Some "auth/weak-password" => "Password should be at least 6 characters."
     | Some "auth/user-disabled" => "This account has been disabled."
     | Some "auth/user-not-found" => "No account found with this email."
     | Some "auth/wrong-password" => "Incorrect password. Please try again."
     | Some "auth/invalid-credential" => "Invalid email or password."
     | Some "auth/too-many-requests" => "Too many failed attempts. Please try again later."
     | Some "auth/network-request-failed" => "Network error. Please check your connection."
     | Some "auth/configuration-not-found" =>
         "Sign-in method is disabled. Please enable " ++ JS.dquote ++ "Email/Password"
         ++ JS.dquote ++ " in Firebase Console."
     | _ => JS.string_or (Some (JS.message error)) message
     end).

(** [now] is the value of [new Date()] during the call. *)
Definition getUserData (now : JS.Date) (uid : string) : Async.t Backend (option User.t) :=
  Async.try_catch
    (let* userDoc := getDoc_users uid in
     match userDoc with
     | None => Async.ret None
     | Some data =>
         Async.ret (Some {| User.uid := uid;
                            User.email := UserDoc.email data;
                            User.name := UserDoc.name data;
                            User.role := UserDoc.role data;
                            User.photoURL := UserDoc.photoURL data;
                            User.phone := UserDoc.phone data;
                            User.createdAt := default now (UserDoc.createdAt data);
                            User.updatedAt := default now (UserDoc.updatedAt data) |})
     end)
    (fun error =>
       console_log "Error fetching user data:" ;;
       Async.ret None).

(** The record [signIn] writes when the user has no document; the two
    timestamps are [serverTimestamp()], resolved by the server. *)
Definition defaultUserDoc (firebaseUser : FirebaseUser.t) (email : string)
  (serverNow : JS.Date) : UserDoc.t :=
  {| UserDoc.email := JS.string_or (FirebaseUser.email firebaseUser) email;
     UserDoc.name :=
       JS.string_or (FirebaseUser.displayName firebaseUser) (JS.split_at_head email);
     UserDoc.role := UserRole.USER;
     UserDoc.photoURL := None;
     UserDoc.phone := None;
     UserDoc.createdAt := Some serverNow;
     UserDoc.updatedAt := Some serverNow |}.

Definition signIn (now : JS.Date) (email password : string) : Async.t Backend User.t :=
  Async.try_catch
    (let* firebaseUser := signInWithEmailAndPassword email password in
     let* userData := getUserData now (FirebaseUser.uid firebaseUser) in
     match userData with
     | Some userData => Async.ret userData
     | None =>
         (* If user document doesn't exist in Firestore, create it from
            Firebase Auth data *)
         let* b := Async.get in
         setDoc_users (FirebaseUser.uid firebaseUser)
           (defaultUserDoc firebaseUser email (serverTime b)) ;;
         Async.ret
           {| User.uid := FirebaseUser.uid firebaseUser;
              User.email := JS.string_or (FirebaseUser.email firebaseUser) email;
              User.name :=
                JS.string_or (FirebaseUser.displayName firebaseUser)
                  (JS.split_at_head email);
              User.role := UserRole.USER;
              User.photoURL := None;
              User.phone := None;
              User.createdAt := now;
              User.updatedAt := now |}
     end)
    (fun error =>
       console_log "Sign in error:" ;;
       Async.throw (handleAuthError error)).

Definition signOut : Async.t Backend unit :=
  Async.try_catch firebaseSignOut (fun error => Async.throw (handleAuthError error)).

End AuthService.

(** ** context/AuthContext.tsx *)

Module AuthContext.
Import Firebase.
Local Open Scope async_scope.

Record State := { user : option User.t; isLoading : bool }.

Definition setUser (u : option User.t) (s : State) : State :=
  {| user := u; isLoading := isLoading s |}.

Definition setIsLoading (l : bool) (s : State) : State :=
  {| user := user s; isLoading := l |}.

Definition isAuthenticated (s : State) : bool :=
  match user s with Some _ => true | None => false end.

Definition signIn (now : JS.Date) (email password : string)
  : Async.t (Backend * State) unit :=
  Async.modify_snd (setIsLoading true) ;;
  Async.try_catch
    (let* userData := Async.on_fst (AuthService.signIn now email password) in
     Async.modify_snd (setUser (Some userData)))
    (fun error =>
       Async.modify_snd (setIsLoading false) ;;
       Async.throw error).

Definition signOut : Async.t (Backend * State) unit :=
  Async.modify_snd (setIsLoading true) ;;
  Async.try_finally
    (Async.on_fst AuthService.signOut ;;
     Async.modify_snd (setUser None))
    (Async.modify_snd (setIsLoading false)).

End AuthContext.

(** ** expo-location, as the location context uses it *)

Module ExpoLocation.

Inductive PermissionStatus := granted | denied | undetermined.

Record PermissionResponse := { status : PermissionStatus; canAskAgain : bool }.

Record LocationObject := { coords_latitude : JS.number; coords_longitude : JS.number }.

Record LocationGeocodedAddress := {
  streetNumber : option string;
  street : option string;
  city : option string;
  region : option string;
  postalCode : option string
}.

(** A position read either settles or is still pending when the caller's
    timer fires. *)
Inductive PositionRead :=
| settles (r : Async.outcome LocationObject)
| pending.

(** How the device answers each call of one location request. *)
Record Device := {
  getForegroundPermissionsAsync : Async.outcome PermissionResponse;
  requestForegroundPermissionsAsync : Async.outcome PermissionResponse;
  getCurrentPositionAsync : PositionRead;
  getLastKnownPositionAsync : Async.outcome (option LocationObject);
  reverseGeocodeAsync :
    JS.number -> JS.number -> Async.outcome (list LocationGeocodedAddress)
}.

End ExpoLocation.

(** ** context/LocationContext.tsx *)

Module LocationContext.
Import ExpoLocation.
Local Open Scope async_scope.

Record State := {
  userLocation : option Location.t;
  isLoading : bool;
  error : option string;
  alerts : list string;   (* titles passed to Alert.alert *)
  console : list string   (* console.warn / console.error *)
}.

Definition setUserLocation (l : option Location.t) (s : State) : State :=
  {| userLocation := l; isLoading := isLoading s; error := error s;
     alerts := alerts s; console := console s |}.

Definition setIsLoading (b : bool) (s : State) : State :=
  {| userLocation := userLocation s; isLoading := b; error := error s;
     alerts := alerts s; console := console s |}.

Definition setError (e : option string) (s : State) : State :=
  {| userLocation := userLocation s; isLoading := isLoading s; error := e;
     alerts := alerts s; console := console s |}.

Definition Alert_alert (title : string) (s : State) : State :=
  {| userLocation := userLocation s; isLoading := isLoading s; error := error s;
     alerts := alerts s ++ [title]; console := console s |}.

Definition console_log (msg : string) (s : State) : State :=
  {| userLocation := userLocation s; isLoading := isLoading s; error := error s;
     alerts := alerts s; console := console s ++ [msg] |}.

(** [await] of a call whose answer the device fixes. *)
Definition await {A} (o : Async.outcome A) : Async.t State A := fun s => (o, s).

Definition is_granted (s : PermissionStatus) : bool :=
  match s with granted => true | _ => false end.

Definition requestPermission (dev : Device) : Async.t State bool :=
  Async.try_catch
    (let* r := await (requestForegroundPermissionsAsync dev) in
     Async.ret (is_granted (status r)))
    (fun err =>
       Async.modify (console_log "Error requesting location permission:") ;;
       Async.ret false).

(** The 10 second race between the position read and the timer. *)
Definition getPositionWithTimeout (dev : Device) : Async.t State LocationObject :=
  match getCurrentPositionAsync dev with
  | settles r => await r
  | pending => Async.throw (JS.new_Error "Location request timed out")
  end.

(** The live read, then the last known position. *)
Definition readPosition (dev : Device) : Async.t State (option LocationObject) :=
  Async.try_catch
    (let* position := getPositionWithTimeout dev in
     Async.ret (Some position))
    (fun err =>
       Async.modify
         (console_log "getCurrentPositionAsync failed or timed out, trying last known position:") ;;
       await (getLastKnownPositionAsync dev)).

(** The reverse-geocoding block: fills the address fields of [location]
    when an address comes back. *)
Definition withAddress (dev : Device) (location : Location.t) : Async.t State Location.t :=
  Async.try_catch
    (let* addresses :=
       await (reverseGeocodeAsync dev (Location.latitude location)
                (Location.longitude location)) in
     match addresses with
     | address :: _ =>
         Async.ret
           {| Location.latitude := Location.latitude location;
              Location.longitude := Location.longitude location;
              Location.address := Some (JS.join_truthy [streetNumber address; street address]);
              Location.city := JS.string_or_undefined (city address);
              Location.state := JS.string_or_undefined (region address);
              Location.zipCode := JS.string_or_undefined (postalCode address) |}
     | [] => Async.ret location
     end)
    (fun geocodeError =>
       Async.modify (console_log "Reverse geocoding failed:") ;;
       Async.ret location).

(** What follows the permission check in [getCurrentLocation]. *)
Definition locate (dev : Device) : Async.t State (option Location.t) :=
  let* position := readPosition dev in
  match position with
  | None => Async.throw (JS.new_Error "Unable to retrieve location.")
  | Some position =>
      let location :=
        {| Location.latitude := coords_latitude position;
           Location.longitude := coords_longitude position;
           Location.address := None; Location.city := None;
           Location.state := None; Location.zipCode := None |} in
      let* location := withAddress dev location in
      Async.modify (setUserLocation (Some location)) ;;
      Async.modify (setIsLoading false) ;;
      Async.ret (Some location)
  end.

Definition giveUp (title reason : string) : Async.t State (option Location.t) :=
  Async.modify (Alert_alert title) ;;
  Async.modify (setError (Some reason)) ;;
  Async.modify (setIsLoading false) ;;
  Async.ret None.

(** The [errorMessage] of the outer [catch] block. *)
Definition errorMessage (err : JS.Error) : string :=
  match JS.code err with
  | Some "E_LOCATION_SERVICES_DISABLED" =>
      "Location services are disabled. Please enable GPS in device settings."
  | _ => JS.string_or (Some (JS.message err)) "Unable to get your current location."
  end.

Definition getCurrentLocation (dev : Device) : Async.t State (option Location.t) :=
  Async.modify (setIsLoading true) ;;
  Async.modify (setError None) ;;
  Async.try_catch
    (let* permission := await (getForegroundPermissionsAsync dev) in
     if is_granted (status permission) then locate dev
     else if canAskAgain permission then
       let* granted := requestPermission dev in
       if granted then locate dev
       else giveUp "Permission Required" "Location permission not granted"
     else giveUp "Permission Denied" "Location permission denied in settings")
    (fun err =>
       Async.modify (console_log "Error getting location:") ;;
       Async.modify (setError (Some (errorMessage err))) ;;
       Async.modify (setIsLoading false) ;;
       Async.ret None).

(** [calculateDistance]: the distance from the user to a spot, or [null]
    when the user's location is unknown. *)
Definition calculateDistance (M : Math.Impl) (userLocation : option Location.t)
  (spot : Location.t) : option JS.number :=
  match userLocation with
  | None => None
  | Some u =>
      Some (Geo.calculateDistance M (Location.latitude u) (Location.longitude u)
              (Location.latitude spot) (Location.longitude spot))
  end.

End LocationContext.

(** ** Notions used to state and prove the properties *)

Module Notions.

(** A decoded double that is a zero or a finite number. *)
Definition SF_is_finite (x : spec_float) : bool :=
  match x with S754_zero _ | S754_finite _ _ _ => true | _ => false end.

(** [sin(toRad(d) / 2)], the half-angle sine that [calculateDistance]
    squares. *)
Definition halfSin (M : Math.Impl) (d : JS.number) : JS.number :=
  Math.sin M (Geo.toRad d / 2)%float.

(** The fault, if any, that the next request to the backend meets. *)
Definition next_fault (b : Firebase.Backend) : option JS.Error :=
  match Firebase.faults b with
  | Some e :: _ => Some e
  | _ => None
  end.


(** The permission check of [getCurrentLocation] lets the request go on. *)
Definition permission_obtained (dev : ExpoLocation.Device) : bool :=
  match ExpoLocation.getForegroundPermissionsAsync dev with
  | Async.Resolved p =>
      LocationContext.is_granted (ExpoLocation.status p)
      || (ExpoLocation.canAskAgain p
          && match ExpoLocation.requestForegroundPermissionsAsync dev with
             | Async.Resolved p' => LocationContext.is_granted (ExpoLocation.status p')
             | Async.Rejected _ => false
             end)
  | Async.Rejected _ => false
  end.

(** The conjunction of the four filter stages of [filteredSpots]. *)
Definition keeps (searchQuery : string) (maxPrice maxDistance : JS.number)
  (selectedSpotTypes : list string) (userLocation : option Location.t)
  (calculateDistance : Location.t -> option JS.number) (spot : ParkingSpot.t) : bool :=
  (if JS.trim_truthy searchQuery
   then SearchScreen.matchesQuery (JS.toLowerCase searchQuery) spot else true)
  && SearchScreen.withinPrice maxPrice spot
  && match userLocation with
     | Some _ => SearchScreen.withinDistance maxDistance calculateDistance spot
     | None => true
     end
  && (if SearchScreen.includes_str selectedSpotTypes "all" then true
      else SearchScreen.ofSelectedType selectedSpotTypes spot).

(** The keys the comparators of [filteredSpots] subtract. *)
Definition ratingKey (spot : ParkingSpot.t) : JS.number :=
  JS.number_or (ParkingSpot.rating spot) 0%float.

Definition distanceKey (calculateDistance : Location.t -> option JS.number)
  (spot : ParkingSpot.t) : JS.number :=
  JS.number_or (calculateDistance (ParkingSpot.location spot)) JS.Infinity.

(** A decoded double with the given sign that is not a zero. *)
Definition SF_signed (s : bool) (x : spec_float) : Prop :=
  (exists m e, x = S754_finite s m e) \/ x = S754_infinity s.

(** The objects of the store outside a folder. *)
Definition outside (folder : string) (paths : list string) : list string :=
  List.filter (fun p => negb (Firebase.in_folder folder p)) paths.

(** A store in which the folder has no sub-folder: every object under
    it is directly in it. *)
Definition flat (folder : string) (paths : list string) : Prop :=
  Forall (fun p => Firebase.in_folder folder p = true ->
                   Firebase.direct_child folder p = true) paths.

(** A backend whose fault script holds no fault. *)
Definition quiet (b : Firebase.Backend) : Prop :=
  Forall (fun f => f = None) (Firebase.faults b).

End Notions.

(** ** Sample data, used by the examples *)

Module Sample.
Local Open Scope float_scope.

Definition location (lat lon : JS.number) : Location.t :=
  {| Location.latitude := lat; Location.longitude := lon;
     Location.address := None; Location.city := None;
     Location.state := None; Location.zipCode := None |}.

(** A garage listing at the given coordinates and hourly price. *)
Definition spot (id : string) (lat lon price : JS.number) : ParkingSpot.t :=
  {| ParkingSpot.id := id;
     ParkingSpot.ownerId := "owner-1";
     ParkingSpot.ownerName := "Ann";
     ParkingSpot.title := "Garage";
     ParkingSpot.description := "Covered garage";
     ParkingSpot.location := location lat lon;
     ParkingSpot.pricePerHour := price;
     ParkingSpot.pricePerDay := None;
     ParkingSpot.imageURLs := [];
     ParkingSpot.isAvailable := true;
     ParkingSpot.availabilitySchedule := None;
     ParkingSpot.spotType := SpotType.GARAGE;
     ParkingSpot.amenities := [];
     ParkingSpot.rating := None;
     ParkingSpot.reviewCount := None;
     ParkingSpot.createdAt := 1700000000000;
     ParkingSpot.updatedAt := 1700000000000 |}.

Definition spotData : ParkingSpotsService.SpotData.t :=
  {| ParkingSpotsService.SpotData.ownerId := "owner-1";
     ParkingSpotsService.SpotData.ownerName := "Ann";
     ParkingSpotsService.SpotData.title := "Garage";
     ParkingSpotsService.SpotData.description := "Covered garage";
     ParkingSpotsService.SpotData.location := location 43.65 (-79.38);
     ParkingSpotsService.SpotData.pricePerHour := 5;
     ParkingSpotsService.SpotData.pricePerDay := None;
     ParkingSpotsService.SpotData.imageURLs := None;
     ParkingSpotsService.SpotData.isAvailable := None;
     ParkingSpotsService.SpotData.availabilitySchedule := None;
     ParkingSpotsService.SpotData.spotType := SpotType.GARAGE;
     ParkingSpotsService.SpotData.amenities := None;
     ParkingSpotsService.SpotData.rating := None;
     ParkingSpotsService.SpotData.reviewCount := None;
     ParkingSpotsService.SpotData.createdAt := None;
     ParkingSpotsService.SpotData.updatedAt := None |}.

Definition firebaseUser : Firebase.FirebaseUser.t :=
  {| Firebase.FirebaseUser.uid := "u1";
     Firebase.FirebaseUser.email := Some "a@b.com";
     Firebase.FirebaseUser.displayName := None;
     Firebase.FirebaseUser.photoURL := None |}.

Definition document : gmap string Firebase.Value :=
  {[ "title" := Firebase.VString "Old";
     "ownerId" := Firebase.VString "owner-1";
     "createdAt" := Firebase.VDate 1700000000000;
     "updatedAt" := Firebase.VDate 1700000000000 ]}.

(** A backend with one account (no profile document yet), one listing
    and one stored image; [faults] scripts the coming requests. *)
Definition backend (faults : list (option JS.Error)) : Firebase.Backend :=
  {| Firebase.accounts :=
       [ {| Firebase.account_email := "a@b.com";
            Firebase.account_password := "abcd1234";
            Firebase.account_user := firebaseUser |} ];
     Firebase.currentUser := None;
     Firebase.users := ∅;
     Firebase.parkingSpots := {[ "s1" := document ]};
     Firebase.storage := ["parkingSpots/s1/1700000000000_0.jpg"];
     Firebase.serverTime := 1700000005000;
     Firebase.requests := [];
     Firebase.faults := faults;
     Firebase.console := [] |}.

Definition networkError : JS.Error :=
  {| JS.code := Some "auth/network-request-failed";
     JS.message := "Firebase: Error (auth/network-request-failed)." |}.

Definition spotsState : ParkingSpotsContext.State :=
  {| ParkingSpotsContext.spots := [spot "s1" 43.65 (-79.38) 5; spot "s2" 43.7 (-79.4) 7];
     ParkingSpotsContext.userSpots := [spot "s1" 43.65 (-79.38) 5];
     ParkingSpotsContext.isLoading := false;
     ParkingSpotsContext.error := None |}.

Definition user : User.t :=
  {| User.uid := "u1"; User.email := "a@b.com"; User.name := "Ann";
     User.role := UserRole.HOMEOWNER; User.photoURL := None; User.phone := None;
     User.createdAt := 1700000000000; User.updatedAt := 1700000000000 |}.

Definition authState : AuthContext.State :=
  {| AuthContext.user := Some user; AuthContext.isLoading := false |}.

(** A device that grants the permission, does not answer the live read
    within the 10 seconds, has a last known position, and whose geocoder
    fails. *)
Definition device : ExpoLocation.Device :=
  {| ExpoLocation.getForegroundPermissionsAsync :=
       Async.Resolved {| ExpoLocation.status := ExpoLocation.granted;
                         ExpoLocation.canAskAgain := true |};
     ExpoLocation.requestForegroundPermissionsAsync :=
       Async.Resolved {| ExpoLocation.status := ExpoLocation.granted;
                         ExpoLocation.canAskAgain := true |};
     ExpoLocation.getCurrentPositionAsync := ExpoLocation.pending;
     ExpoLocation.getLastKnownPositionAsync :=
       Async.Resolved (Some {| ExpoLocation.coords_latitude := 43.65;
                               ExpoLocation.coords_longitude := -79.38 |});
     ExpoLocation.reverseGeocodeAsync :=
       fun _ _ => Async.Rejected (JS.new_Error "Geocoder unavailable") |}.

Definition locationState : LocationContext.State :=
  {| LocationContext.userLocation := None;
     LocationContext.isLoading := false;
     LocationContext.error := None;
     LocationContext.alerts := [];
     LocationContext.console := [] |}.

(** A device that grants the permission and answers the live read in
    time, at another place than its last known position; its geocoder
    knows the address. *)
Definition liveDevice : ExpoLocation.Device :=
  {| ExpoLocation.getForegroundPermissionsAsync :=
       Async.Resolved {| ExpoLocation.status := ExpoLocation.granted;
                         ExpoLocation.canAskAgain := true |};
     ExpoLocation.requestForegroundPermissionsAsync :=
       Async.Resolved {| ExpoLocation.status := ExpoLocation.granted;
                         ExpoLocation.canAskAgain := true |};
     ExpoLocation.getCurrentPositionAsync :=
       ExpoLocation.settles
         (Async.Resolved {| ExpoLocation.coords_latitude := 1;
                            ExpoLocation.coords_longitude := 1 |});
     ExpoLocation.getLastKnownPositionAsync :=
       Async.Resolved (Some {| ExpoLocation.coords_latitude := 2;
                               ExpoLocation.coords_longitude := 2 |});
     ExpoLocation.reverseGeocodeAsync :=
       fun _ _ =>
         Async.Resolved
           [ {| ExpoLocation.streetNumber := Some "1";
                ExpoLocation.street := Some "Main St";
                ExpoLocation.city := Some "Toronto";
                ExpoLocation.region := Some "ON";
                ExpoLocation.postalCode := None |} ] |}.

(** A device on which the permission is denied for good. *)
Definition deniedDevice : ExpoLocation.Device :=
  {| ExpoLocation.getForegroundPermissionsAsync :=
       Async.Resolved {| ExpoLocation.status := ExpoLocation.denied;
                         ExpoLocation.canAskAgain := false |};
     ExpoLocation.requestForegroundPermissionsAsync :=
       Async.Resolved {| ExpoLocation.status := ExpoLocation.denied;
                         ExpoLocation.canAskAgain := false |};
     ExpoLocation.getCurrentPositionAsync := ExpoLocation.pending;
     ExpoLocation.getLastKnownPositionAsync := Async.Resolved None;
     ExpoLocation.reverseGeocodeAsync := fun _ _ => Async.Resolved [] |}.

(** The document of [spotData] with the given creation time. *)
Definition spotDataCreated (createdAt : option JS.Date) : ParkingSpotsService.SpotData.t :=
  {| ParkingSpotsService.SpotData.ownerId := "owner-1";
     ParkingSpotsService.SpotData.ownerName := "Ann";
     ParkingSpotsService.SpotData.title := "Garage";
     ParkingSpotsService.SpotData.description := "Covered garage";
     ParkingSpotsService.SpotData.location := location 43.65 (-79.38);
     ParkingSpotsService.SpotData.pricePerHour := 5;
     ParkingSpotsService.SpotData.pricePerDay := None;
     ParkingSpotsService.SpotData.imageURLs := None;
     ParkingSpotsService.SpotData.isAvailable := None;
     ParkingSpotsService.SpotData.availabilitySchedule := None;
     ParkingSpotsService.SpotData.spotType := SpotType.GARAGE;
     ParkingSpotsService.SpotData.amenities := None;
     ParkingSpotsService.SpotData.rating := None;
     ParkingSpotsService.SpotData.reviewCount := None;
     ParkingSpotsService.SpotData.createdAt := createdAt;
     ParkingSpotsService.SpotData.updatedAt := None |}.

(** The profile of a homeowner, and the backend that stores it for the
    account of [firebaseUser]. *)
Definition homeownerDoc : Firebase.UserDoc.t :=
  {| Firebase.UserDoc.email := "a@b.com";
     Firebase.UserDoc.name := "Ann";
     Firebase.UserDoc.role := UserRole.HOMEOWNER;
     Firebase.UserDoc.photoURL := None;
     Firebase.UserDoc.phone := Some "555-0100";
     Firebase.UserDoc.createdAt := Some 1700000000000;
     Firebase.UserDoc.updatedAt := Some 1700000000000 |}.

Definition backendWithProfile (faults : list (option JS.Error)) : Firebase.Backend :=
  Firebase.set_users (fun _ => {[ "u1" := homeownerDoc ]}) (backend faults).

End Sample.

(* ================================================================== *)
(** * Part II: properties *)
(* ================================================================== *)

(** ** Binary64 arithmetic facts

    Proved from the specification of primitive floats ([SpecFloat]):
    the operations are sign-symmetric, and rounding a product that stays
    far below the largest double does not overflow. *)

Module FloatFacts.
Import Notions.
Local Open Scope float_scope.

Lemma round_aux_opp s m e l :
  binary_round_aux prec emax (negb s) m e l = SFopp (binary_round_aux prec emax s m e l).
Proof.
  unfold binary_round_aux.
  destruct (shr_fexp prec emax m e l) as [mrs' e'].
  destruct (shr_fexp prec emax _ e' loc_Exact) as [mrs'' e''].
  destruct (shr_m mrs''); simpl; auto.
  destruct (_ <=? _)%Z; reflexivity.
Qed.

Lemma round_opp s m e :
  binary_round prec emax (negb s) m e = SFopp (binary_round prec emax s m e).
Proof.
  unfold binary_round. destruct (shl_align _ _ _) as [mz ez]. apply round_aux_opp.
Qed.

Lemma normalize_opp m e :
  m <> 0%Z ->
  binary_normalize prec emax (- m) e false = SFopp (binary_normalize prec emax m e false).
Proof.
  destruct m; simpl; intros H; [congruence| |].
  - apply (round_opp false).
  - change true with (negb false). rewrite round_opp.
    destruct (binary_round prec emax false p e); simpl; rewrite ?negb_involutive; reflexivity.
Qed.

Lemma mul_comm (x y : float) : x * y = y * x.
Proof.
  apply Prim2SF_inj. rewrite !FloatAxioms.mul_spec.
  destruct (Prim2SF x) as [sx|sx| |sx mx ex], (Prim2SF y) as [sy|sy| |sy my ey]; simpl;
    try reflexivity; try (rewrite xorb_comm; reflexivity).
  rewrite xorb_comm, Pos.mul_comm, Z.add_comm. reflexivity.
Qed.

Lemma mul_opp_l (x y : float) : (- x) * y = - (x * y).
Proof.
  apply Prim2SF_inj. rewrite FloatAxioms.opp_spec, !FloatAxioms.mul_spec, FloatAxioms.opp_spec.
  destruct (Prim2SF x) as [sx|sx| |sx mx ex], (Prim2SF y) as [sy|sy| |sy my ey]; simpl;
    try reflexivity; try (rewrite <- negb_xorb_l; reflexivity).
  rewrite <- negb_xorb_l. apply round_aux_opp.
Qed.

Lemma mul_opp_r (x y : float) : x * (- y) = - (x * y).
Proof. rewrite (mul_comm x), mul_opp_l, (mul_comm y). reflexivity. Qed.

Lemma div_opp_l (x y : float) : (- x) / y = - (x / y).
Proof.
  apply Prim2SF_inj. rewrite FloatAxioms.opp_spec, !FloatAxioms.div_spec, FloatAxioms.opp_spec.
  destruct (Prim2SF x) as [sx|sx| |sx mx ex], (Prim2SF y) as [sy|sy| |sy my ey]; simpl;
    try reflexivity; try (rewrite <- negb_xorb_l; reflexivity).
  destruct (SFdiv_core_binary prec emax (Z.pos mx) ex (Z.pos my) ey) as [[mz ez] lz].
  rewrite <- negb_xorb_l. apply round_aux_opp.
Qed.

Lemma opp_involutive (x : float) : - - x = x.
Proof.
  apply Prim2SF_inj. rewrite !FloatAxioms.opp_spec.
  destruct (Prim2SF x); simpl; rewrite ?negb_involutive; reflexivity.
Qed.

(** Swapping the operands of a subtraction negates the result, except
    that a zero difference of equal operands is [+0] both ways. *)
Lemma sub_swap (x y : float) : y - x = x - y \/ y - x = - (x - y).
Proof.
  assert (Prim2SF (y - x) = Prim2SF (x - y) \/ Prim2SF (y - x) = Prim2SF (- (x - y))) as [H|H];
    [| left; now apply Prim2SF_inj | right; now apply Prim2SF_inj].
  rewrite FloatAxioms.opp_spec, !FloatAxioms.sub_spec.
  destruct (Prim2SF x) as [sx|sx| |sx mx ex], (Prim2SF y) as [sy|sy| |sy my ey]; simpl;
    try (destruct sx, sy; simpl; auto; fail); auto.
  unfold SF64sub; simpl.
  rewrite (Z.min_comm ey ex).
  set (a := cond_Zopp sx _). set (b := cond_Zopp sy _).
  destruct (Z.eq_dec (a - b)%Z 0%Z) as [E|E].
  - left. replace (b - a)%Z with 0%Z by lia. rewrite E. reflexivity.
  - right. replace (b - a)%Z with (- (a - b))%Z by lia. now apply normalize_opp.
Qed.

Local Open Scope Z_scope.

Lemma digits2_pos_size p : digits2_pos p = Pos.size p.
Proof. induction p; simpl; congruence. Qed.

Lemma Zdigits2_log2 m : (0 < m)%Z -> Zdigits2 m = (Z.log2 m + 1)%Z.
Proof.
  destruct m as [|p|p]; try lia. intros _. simpl. rewrite digits2_pos_size.
  destruct p; simpl; lia.
Qed.

Lemma shr_1_div2 mrs : (0 <= shr_m mrs)%Z -> shr_m (shr_1 mrs) = Z.div2 (shr_m mrs).
Proof.
  destruct mrs as [m r s]. simpl. destruct m as [|[p|p|]|p]; simpl; try reflexivity; lia.
Qed.

Lemma iter_shr_1 n : forall mrs, (0 <= shr_m mrs)%Z ->
  shr_m (SpecFloat.iter_pos shr_1 n mrs) = Z.shiftr (shr_m mrs) (Z.pos n).
Proof.
  induction n as [n IH|n IH|]; intros mrs H; simpl SpecFloat.iter_pos.
  - assert (H1 : (0 <= shr_m (shr_1 mrs))%Z)
      by (rewrite shr_1_div2 by assumption; apply Z.div2_nonneg; assumption).
    rewrite IH, IH, shr_1_div2
      by (rewrite ?IH by assumption; try apply Z.shiftr_nonneg; assumption).
    rewrite Z.div2_spec, !Z.shiftr_shiftr by lia. f_equal. lia.
  - rewrite IH, IH by (rewrite ?IH by assumption; try apply Z.shiftr_nonneg; assumption).
    rewrite Z.shiftr_shiftr by lia. f_equal. lia.
  - rewrite shr_1_div2 by assumption. apply Z.div2_spec.
Qed.

Lemma shr_fexp_spec m e l : (0 <= m)%Z ->
  let e1 := Z.max e (fexp prec emax (Zdigits2 m + e)) in
  exists mrs, shr_fexp prec emax m e l = (mrs, e1) /\ shr_m mrs = Z.shiftr m (e1 - e).
Proof.
  intros Hm e1. unfold shr_fexp, shr. fold (fexp prec emax).
  assert (Hrec : shr_m (shr_record_of_loc m l) = m) by (destruct l as [|[]]; reflexivity).
  destruct (fexp prec emax (Zdigits2 m + e) - e)%Z as [|q|q] eqn:En.
  - exists (shr_record_of_loc m l). replace e1 with e by lia.
    rewrite Z.sub_diag. simpl. auto.
  - exists (SpecFloat.iter_pos shr_1 q (shr_record_of_loc m l)).
    replace e1 with (e + Z.pos q)%Z by lia. split; [reflexivity|].
    rewrite iter_shr_1 by (rewrite Hrec; assumption). rewrite Hrec. f_equal. lia.
  - exists (shr_record_of_loc m l). replace e1 with e by lia.
    rewrite Z.sub_diag. simpl. auto.
Qed.

Lemma round_nearest_even_bounds m l : (0 <= m)%Z ->
  (m <= round_nearest_even m l <= m + 1)%Z.
Proof.
  intros H. destruct l as [|[]]; simpl; try lia. destruct (Z.even m); lia.
Qed.

Lemma Zdigits2_shiftr m k : (0 <= m)%Z -> (0 <= k)%Z -> (0 < Z.shiftr m k)%Z ->
  (Zdigits2 (Z.shiftr m k) + k = Zdigits2 m)%Z.
Proof.
  intros Hm Hk Hs.
  assert (0 < m)%Z.
  { destruct (Z.eq_dec m 0) as [->|]; [rewrite Z.shiftr_0_l in Hs|]; lia. }
  rewrite !Zdigits2_log2 by assumption.
  rewrite Z.log2_shiftr by assumption.
  destruct (Z_lt_le_dec (Z.log2 m) k) as [Hlt|Hle]; [|lia].
  rewrite Z.shiftr_eq_0 in Hs by lia. lia.
Qed.

Lemma Zdigits2_succ_le m : (0 <= m)%Z -> (Zdigits2 (m + 1) <= Zdigits2 m + 1)%Z.
Proof.
  intros H. destruct (Z.eq_dec m 0) as [->|]; [simpl; lia|].
  rewrite !Zdigits2_log2 by lia. pose proof (Z.log2_succ_le m) as L.
  change (Z.succ m) with (m + 1)%Z in L. lia.
Qed.

Lemma Zdigits2_mono a b : (0 <= a <= b)%Z -> (Zdigits2 a <= Zdigits2 b)%Z.
Proof.
  intros H. destruct (Z.eq_dec a 0) as [->|].
  - destruct b; simpl; lia.
  - rewrite !Zdigits2_log2 by lia. pose proof (Z.log2_le_mono a b). lia.
Qed.

Lemma Zdigits2_mul p q :
  (Zdigits2 (Z.pos (p * q)) <= Zdigits2 (Z.pos p) + Zdigits2 (Z.pos q))%Z.
Proof.
  rewrite Pos2Z.inj_mul, !Zdigits2_log2 by lia.
  pose proof (Z.log2_mul_above (Z.pos p) (Z.pos q)). lia.
Qed.

(** Rounding a positive mantissa whose magnitude is below [2^1023] never
    overflows. *)
Lemma binary_round_aux_finite s p e :
  (e <= 971)%Z -> (Zdigits2 (Z.pos p) + e <= 1023)%Z ->
  SF_is_finite (binary_round_aux prec emax s (Z.pos p) e loc_Exact) = true.
Proof.
  intros He Hd. unfold binary_round_aux.
  destruct (shr_fexp_spec (Z.pos p) e loc_Exact) as (mrs1 & E1 & M1); [lia|].
  rewrite E1. set (e1 := Z.max e (fexp prec emax (Zdigits2 (Z.pos p) + e))) in *.
  set (m2 := round_nearest_even (shr_m mrs1) (loc_of_shr_record mrs1)).
  assert (H1 : (0 <= shr_m mrs1)%Z) by (rewrite M1; apply Z.shiftr_nonneg; lia).
  pose proof (round_nearest_even_bounds (shr_m mrs1) (loc_of_shr_record mrs1) H1) as B2.
  fold m2 in B2.
  destruct (shr_fexp_spec m2 e1 loc_Exact) as (mrs2 & E2 & M2); [lia|].
  rewrite E2. set (e2 := Z.max e1 (fexp prec emax (Zdigits2 m2 + e1))) in *.
  assert (H2 : (0 <= shr_m mrs2)%Z) by (rewrite M2; apply Z.shiftr_nonneg; lia).
  assert (Hf : forall t, fexp prec emax t = Z.max (t - 53) (-1074)) by reflexivity.
  assert (Hd2 : (Zdigits2 m2 + e1 <= 1024)%Z \/ (Zdigits2 m2 <= 1)%Z).
  { destruct (Z.eq_dec (shr_m mrs1) 0) as [Z0|NZ].
    - right. assert (m2 = 0 \/ m2 = 1)%Z as [->| ->] by lia; simpl; lia.
    - left. pose proof (Zdigits2_mono m2 (shr_m mrs1 + 1) ltac:(lia)).
      pose proof (Zdigits2_succ_le (shr_m mrs1) H1).
      assert (Zdigits2 (shr_m mrs1) + (e1 - e) = Zdigits2 (Z.pos p))%Z.
      { rewrite M1. apply Zdigits2_shiftr; lia. }
      lia. }
  assert (He1 : (e1 <= 971)%Z) by (unfold e1; rewrite Hf; lia).
  assert (He1' : (-1074 <= e1)%Z) by (unfold e1; rewrite Hf; lia).
  assert (He2 : (e2 <= 971)%Z) by (unfold e2; rewrite Hf; lia).
  destruct (shr_m mrs2) as [|q|q] eqn:Eq.
  - reflexivity.
  - change (emax - prec)%Z with 971%Z.
    destruct (Z.leb_spec e2 971); [reflexivity|lia].
  - lia.
Qed.

Local Open Scope float_scope.

Lemma is_finite_SF (x : float) : is_finite x = SF_is_finite (Prim2SF x).
Proof.
  unfold is_finite, is_nan, is_infinity.
  rewrite !FloatAxioms.eqb_spec, FloatAxioms.abs_spec.
  replace (Prim2SF infinity) with (S754_infinity false) by reflexivity.
  destruct (Prim2SF x) as [[]|[]| |s m e]; try reflexivity.
  unfold SFeqb; simpl. destruct s; rewrite Z.compare_refl, Pos.compare_cont_refl; reflexivity.
Qed.

Lemma valid_finite_bounds (x : float) s m e :
  Prim2SF x = S754_finite s m e ->
  (e <= 971)%Z /\ (Zdigits2 (Z.pos m) <= 53)%Z.
Proof.
  intros E. pose proof (Prim2SF_valid x) as V. rewrite E in V.
  unfold valid_binary, bounded, canonical_mantissa in V.
  apply andb_prop in V as [C B]. apply Z.leb_le in B. apply Z.eqb_eq in C.
  change (fexp prec emax (Z.pos (digits2_pos m) + e))
    with (Z.max (Z.pos (digits2_pos m) + e - 53) (-1074)) in C.
  change (emax - prec)%Z with 971%Z in B. simpl Zdigits2. lia.
Qed.

Lemma SFmul_finite sx mx ex sy my ey :
  (ex + ey <= 971)%Z ->
  (Zdigits2 (Z.pos mx) + ex + (Zdigits2 (Z.pos my) + ey) <= 1023)%Z ->
  SF_is_finite (SFmul prec emax (S754_finite sx mx ex) (S754_finite sy my ey)) = true.
Proof.
  intros He Hd. simpl. apply binary_round_aux_finite; [assumption|].
  pose proof (Zdigits2_mul mx my). lia.
Qed.

Lemma sub_diag (x : float) : is_finite x = true -> x - x = 0.
Proof.
  rewrite is_finite_SF. intros F. apply Prim2SF_inj. rewrite FloatAxioms.sub_spec.
  replace (Prim2SF 0) with (S754_zero false) by reflexivity.
  destruct (Prim2SF x) as [s|s| |s m e]; try discriminate.
  - destruct s; reflexivity.
  - unfold SF64sub. simpl. rewrite Z.min_id. unfold shl_align.
    rewrite !Z.sub_diag. reflexivity.
Qed.

(** The square of a value of magnitude at most 1 is finite and not
    negative, so multiplying it by [+0] gives [+0]. *)
Lemma sq_mul_zero (c : float) : (abs c <=? 1) = true -> c * c * 0 = 0.
Proof.
  intros L. rewrite FloatAxioms.leb_spec, FloatAxioms.abs_spec in L.
  replace (Prim2SF 1) with (S754_finite false 4503599627370496 (-52)) in L by reflexivity.
  apply Prim2SF_inj. rewrite !FloatAxioms.mul_spec.
  replace (Prim2SF 0) with (S754_zero false) by reflexivity.
  destruct (Prim2SF c) as [s|s| |s m e] eqn:E; try discriminate.
  - simpl. rewrite xorb_nilpotent. reflexivity.
  - destruct (valid_finite_bounds c s m e E) as [_ D].
    assert (He : (e <= -52)%Z).
    { unfold SFleb, SFabs, SFcompare in L.
      destruct (Z.compare_spec e (-52)); try lia; discriminate. }
    pose proof (SFmul_finite s m e s m e ltac:(lia) ltac:(lia)) as F.
    simpl in F |- *. rewrite xorb_nilpotent in F |- *.
    unfold binary_round_aux in F |- *.
    destruct (shr_fexp prec emax _ _ _) as [mrs1 e1].
    destruct (shr_fexp prec emax _ e1 _) as [mrs2 e2].
    destruct (shr_m mrs2); try discriminate; [reflexivity|].
    destruct (e2 <=? emax - prec)%Z; [reflexivity|discriminate].
Qed.

End FloatFacts.

(** ** GeoMath: the Haversine distance *)

Module GeoFacts.
Import Notions FloatFacts.
Local Open Scope float_scope.

Section WithMath.
Variable M : Math.Impl.
Hypothesis HM : Math.Conforms M.

Lemma toRad_opp d : Geo.toRad (- d) = - Geo.toRad d.
Proof. unfold Geo.toRad. apply mul_opp_l. Qed.

Lemma toRad_zero : Geo.toRad 0 = 0.
Proof. reflexivity. Qed.

Lemma toRad_finite deg : is_finite deg = true -> is_finite (Geo.toRad deg) = true.
Proof.
  rewrite !is_finite_SF. unfold Geo.toRad. rewrite FloatAxioms.mul_spec.
  replace (Prim2SF (Math.PI / 180)) with (S754_finite false 5030569068109113 (-58))
    by (vm_compute; reflexivity).
  destruct (Prim2SF deg) as [s|s| |s m e] eqn:E; try discriminate; intros _; [reflexivity|].
  destruct (valid_finite_bounds deg s m e E).
  apply SFmul_finite; [lia|].
  change (Zdigits2 (Z.pos 5030569068109113)) with 53%Z. lia.
Qed.

Local Abbreviation halfSin := (Notions.halfSin M).

Lemma halfSin_opp d : halfSin (- d) = - halfSin d.
Proof.
  unfold Notions.halfSin. rewrite toRad_opp, div_opp_l. apply (Math.sin_odd M HM).
Qed.

Lemma halfSin_zero : halfSin 0 = 0.
Proof.
  unfold Notions.halfSin. rewrite toRad_zero.
  replace (0 / 2) with 0 by reflexivity. apply (Math.sin_zero M HM).
Qed.

Lemma halfSin_sq_swap x y :
  halfSin (y - x) * halfSin (y - x) = halfSin (x - y) * halfSin (x - y).
Proof.
  destruct (sub_swap x y) as [E|E]; rewrite E; [reflexivity|].
  rewrite halfSin_opp, mul_opp_l, mul_opp_r. apply opp_involutive.
Qed.

Lemma scaled_halfSin_sq_swap p x y :
  p * halfSin (y - x) * halfSin (y - x) = p * halfSin (x - y) * halfSin (x - y).
Proof.
  destruct (sub_swap x y) as [E|E]; rewrite E; [reflexivity|].
  rewrite halfSin_opp, !mul_opp_r, mul_opp_l. apply opp_involutive.
Qed.

Lemma calculateDistance_sym lat1 lon1 lat2 lon2 :
  Geo.calculateDistance M lat1 lon1 lat2 lon2 = Geo.calculateDistance M lat2 lon2 lat1 lon1.
Proof.
  unfold Geo.calculateDistance. fold (halfSin (lat2 - lat1)) (halfSin (lon2 - lon1)).
  fold (halfSin (lat1 - lat2)) (halfSin (lon1 - lon2)).
  rewrite (halfSin_sq_swap lat1 lat2), (scaled_halfSin_sq_swap _ lon1 lon2).
  rewrite (mul_comm (Math.cos M (Geo.toRad lat1))). reflexivity.
Qed.

Lemma calculateDistance_same lat lon :
  is_finite lat = true -> is_finite lon = true ->
  Geo.calculateDistance M lat lon lat lon = 0.
Proof.
  intros Flat Flon. unfold Geo.calculateDistance.
  fold (halfSin (lat - lat)) (halfSin (lon - lon)).
  rewrite !sub_diag, halfSin_zero by assumption.
  rewrite (sq_mul_zero (Math.cos M (Geo.toRad lat)))
    by (apply (Math.cos_range M HM), toRad_finite, Flat).
  replace (0 * 0 + 0 * 0) with 0 by reflexivity.
  replace (Math.sqrt 0) with 0 by reflexivity.
  replace (Math.sqrt (1 - 0)) with 1 by reflexivity.
  rewrite (Math.atan2_zero M HM). reflexivity.
Qed.

End WithMath.

Lemma smallAngle_conforms : Math.Conforms Math.smallAngle.
Proof. split; simpl; intros; reflexivity. Defined.

(** C9: for every two coordinate pairs the Haversine distance is the same
    double in both directions ([NaN] included), and the distance from a
    point with finite coordinates to itself is [0]; [Math] is any
    implementation with the properties of [Math.Conforms]. *)
Theorem calculateDistance_symmetric_and_zero_on_diagonal (M : Math.Impl) :
  Math.Conforms M ->
  (forall lat1 lon1 lat2 lon2,
      Geo.calculateDistance M lat1 lon1 lat2 lon2
      = Geo.calculateDistance M lat2 lon2 lat1 lon1)
  /\ (forall lat lon,
         is_finite lat = true -> is_finite lon = true ->
         Geo.calculateDistance M lat lon lat lon = 0).
Proof.
  intros HM. split.
  - apply calculateDistance_sym, HM.
  - apply calculateDistance_same, HM.
Qed.

Lemma calculateDistance_symmetric_and_zero_on_diagonal_witness :
  Geo.calculateDistance Math.smallAngle 43.65 (-79.38) 45.5 (-73.57)
  = Geo.calculateDistance Math.smallAngle 45.5 (-73.57) 43.65 (-79.38)
  /\ Geo.calculateDistance Math.smallAngle 43.65 (-79.38) 43.65 (-79.38) = 0.
Proof.
  destruct (calculateDistance_symmetric_and_zero_on_diagonal
              Math.smallAngle smallAngle_conforms) as [S D].
  split; [apply S | apply D; reflexivity].
Defined.

End GeoFacts.

(** ** [Array.prototype.sort] *)

Module SortFacts.
Section Sort.
Context {A : Type}.
Variable comparefn : A -> A -> JS.number.

Lemma insert_perm x l : Permutation (JS.insert comparefn x l) (x :: l).
Proof.
  induction l as [|y l IH]; simpl; [reflexivity|].
  destruct (JS.comes_after comparefn x y); [|reflexivity].
  rewrite IH. apply perm_swap.
Qed.

Lemma sort_perm l : Permutation (JS.sort comparefn l) l.
Proof.
  induction l as [|x l IH]; simpl; [reflexivity|].
  unfold JS.sort in IH |- *. simpl. rewrite insert_perm. now constructor.
Qed.

Lemma In_sort x l : In x (JS.sort comparefn l) <-> In x l.
Proof.
  split; apply Permutation_in; [apply sort_perm | symmetry; apply sort_perm].
Qed.

Lemma length_sort l : length (JS.sort comparefn l) = length l.
Proof. apply Permutation_length, sort_perm. Qed.

(** When no call of the comparator returns a positive number, nothing
    moves. *)
Lemma sort_unchanged l :
  (forall a b, JS.comes_after comparefn a b = false) -> JS.sort comparefn l = l.
Proof.
  intros H. induction l as [|x l IH]; [reflexivity|].
  unfold JS.sort in IH |- *. simpl. rewrite IH.
  destruct l as [|y l]; simpl; [reflexivity|]. now rewrite H.
Qed.

End Sort.

(** The sort reads its comparator only through the calls it makes. *)
Lemma sort_ext {A} (f g : A -> A -> JS.number) l :
  (forall a b, f a b = g a b) -> JS.sort f l = JS.sort g l.
Proof.
  intros H. unfold JS.sort. induction l as [|x l IH]; simpl; [reflexivity|].
  rewrite IH. generalize (fold_right (JS.insert g) [] l). intros l'.
  induction l' as [|y l' IH']; simpl; [reflexivity|].
  unfold JS.comes_after. rewrite H, IH'. reflexivity.
Qed.

End SortFacts.

(** ** SearchFilterEngine: [filteredSpots] *)

Module SearchFacts.
Import SearchScreen.
Local Open Scope float_scope.

Lemma In_byQuery q spots L :
  In L (byQuery q spots) <->
  In L spots /\ (JS.trim_truthy q = true -> matchesQuery (JS.toLowerCase q) L = true).
Proof.
  unfold byQuery. destruct (JS.trim_truthy q).
  - rewrite filter_In. intuition.
  - intuition discriminate.
Qed.

Lemma In_byPrice P spots L :
  In L (byPrice P spots) <-> In L spots /\ withinPrice P L = true.
Proof. apply filter_In. Qed.

Lemma In_byDistance D uloc calc spots L :
  In L (byDistance D uloc calc spots) <->
  In L spots /\ (uloc <> None -> withinDistance D calc L = true).
Proof.
  unfold byDistance. destruct uloc.
  - rewrite filter_In. intuition congruence.
  - intuition congruence.
Qed.

Lemma In_bySpotType types spots L :
  In L (bySpotType types spots) <->
  In L spots /\ (includes_str types "all" = false -> ofSelectedType types L = true).
Proof.
  unfold bySpotType. destruct (includes_str types "all"); simpl.
  - intuition discriminate.
  - rewrite filter_In. intuition.
Qed.

Lemma In_filteredSpots spots q P D types sortBy uloc calc L :
  In L (filteredSpots spots q P D types sortBy uloc calc) <->
  In L (bySpotType types (byDistance D uloc calc (byQuery q spots)))
  /\ withinPrice P L = true.
Proof.
  unfold filteredSpots. rewrite SortFacts.In_sort.
  rewrite !In_bySpotType, !In_byDistance, In_byPrice. tauto.
Qed.

(** C6: a listing is in the output of [filteredSpots] exactly when it
    passes the other stages and its hourly price is at most the ceiling
    ([<=] on doubles, so the bound is inclusive): a listing priced 12.50
    is kept at ceiling 12.50 whenever the other stages keep it, and never
    at ceiling 12.49. *)
Theorem price_ceiling_is_inclusive :
  (forall spots q P D types sortBy uloc calc L,
      In L (filteredSpots spots q P D types sortBy uloc calc) <->
      In L (bySpotType types (byDistance D uloc calc (byQuery q spots)))
      /\ PrimFloat.leb (ParkingSpot.pricePerHour L) P = true)
  /\ (forall L, ParkingSpot.pricePerHour L = 12.5 ->
      forall spots q D types sortBy uloc calc,
        (In L (filteredSpots spots q 12.5 D types sortBy uloc calc) <->
         In L (bySpotType types (byDistance D uloc calc (byQuery q spots))))
        /\ ~ In L (filteredSpots spots q 12.49 D types sortBy uloc calc)).
Proof.
  split.
  - intros. apply In_filteredSpots.
  - intros L HL spots q D types sortBy uloc calc.
    rewrite !In_filteredSpots. unfold withinPrice. rewrite HL.
    replace (PrimFloat.leb 12.5 12.5) with true by reflexivity.
    replace (PrimFloat.leb 12.5 12.49) with false by reflexivity.
    intuition discriminate.
Qed.

Lemma price_ceiling_is_inclusive_witness :
  let L := Sample.spot "s1" 43.65 (-79.38) 12.5 in
  In L (filteredSpots [L] "" 12.5 100000 ["all"] distance None (fun _ => None))
  /\ ~ In L (filteredSpots [L] "" 12.49 100000 ["all"] distance None (fun _ => None)).
Proof.
  intros L.
  destruct price_ceiling_is_inclusive as [_ H].
  destruct (H L eq_refl [L] "" 100000 ["all"] distance None (fun _ => None)) as [Hin Hout].
  split; [apply Hin; simpl; auto | exact Hout].
Defined.

(** C5: with the origin unknown the distance stage does nothing, whatever
    the distance ceiling and whatever [calculateDistance] answers: the
    output is the sort of what the query, price and type stages keep, so
    it holds exactly the listings those three stages keep (with their
    multiplicities) and does not depend on the ceiling. *)
Theorem unknown_origin_skips_distance_stage spots q P D types sortBy calc :
  filteredSpots spots q P D types sortBy None calc
  = JS.sort (compareSpots sortBy None calc) (bySpotType types (byPrice P (byQuery q spots)))
  /\ Permutation (filteredSpots spots q P D types sortBy None calc)
       (bySpotType types (byPrice P (byQuery q spots)))
  /\ (forall L, In L (filteredSpots spots q P D types sortBy None calc) <->
                In L (bySpotType types (byPrice P (byQuery q spots))))
  /\ (forall D' calc',
        filteredSpots spots q P D' types sortBy None calc'
        = filteredSpots spots q P D types sortBy None calc).
Proof.
  split; [reflexivity|]. split; [|split].
  - unfold filteredSpots. cbn [byDistance]. apply SortFacts.sort_perm.
  - intros L. unfold filteredSpots. apply SortFacts.In_sort.
  - intros D' calc'. unfold filteredSpots. cbn [byDistance].
    apply SortFacts.sort_ext. intros a b. destruct sortBy; reflexivity.
Qed.

Lemma unknown_origin_skips_distance_stage_witness :
  let near := Sample.spot "near" 43.65 (-79.38) 5 in
  let far := Sample.spot "far" 10 10 7 in
  filteredSpots [near; far] "" 50 25 ["all"] price None (fun _ => Some 9000)
  = filteredSpots [near; far] "" 50 0 ["all"] price None (fun _ => None)
  /\ filteredSpots [near; far] "" 50 0 ["all"] price None (fun _ => None) = [near; far].
Proof.
  intros near far.
  destruct (unknown_origin_skips_distance_stage [near; far] "" 50 0 ["all"] price
              (fun _ => None)) as (Hrun & _ & _ & Hany).
  split.
  - apply Hany.
  - rewrite Hrun. reflexivity.
Defined.

(** With the origin unknown and the distance key selected, the comparator
    returns 0 for every pair, so sorting leaves the order as it is. *)
Lemma unknown_origin_distance_sort_is_identity spots q P D types calc :
  filteredSpots spots q P D types distance None calc
  = bySpotType types (byPrice P (byQuery q spots)).
Proof.
  unfold filteredSpots. simpl byDistance. apply SortFacts.sort_unchanged.
  intros a b. reflexivity.
Qed.

(** A positive finite distance is truthy and lies below [Infinity]. *)
Lemma positive_distance_before_Infinity (d : float) :
  PrimFloat.ltb 0 d = true -> PrimFloat.is_finite d = true ->
  JS.truthy d = true /\ PrimFloat.ltb 0 (JS.Infinity - d) = true.
Proof.
  unfold JS.truthy, JS.Infinity, PrimFloat.is_nan.
  rewrite FloatFacts.is_finite_SF, !FloatAxioms.ltb_spec, !FloatAxioms.eqb_spec,
    FloatAxioms.sub_spec.
  replace (Prim2SF infinity) with (S754_infinity false) by reflexivity.
  replace (Prim2SF 0) with (S754_zero false) by reflexivity.
  destruct (Prim2SF d) as [s|s| |s m e]; try discriminate.
  destruct s; try discriminate. intros _ _. split; [|reflexivity].
  unfold SFeqb. simpl. rewrite Z.compare_refl, Pos.compare_cont_refl. reflexivity.
Qed.

(** The defect behind C3, for every conforming [Math]: a listing at the
    user's own coordinates has distance 0, which [|| Infinity] turns into
    [Infinity], so it is sorted behind a listing that is farther away. *)
Lemma zero_distance_listing_sorts_last (M : Math.Impl) lat lon lat' lon' d D :
  Math.Conforms M ->
  PrimFloat.is_finite lat = true -> PrimFloat.is_finite lon = true ->
  Geo.calculateDistance M lat lon lat' lon' = d ->
  PrimFloat.ltb 0 d = true -> PrimFloat.is_finite d = true ->
  PrimFloat.leb d D = true -> PrimFloat.leb 0 D = true ->
  let origin := Sample.location lat lon in
  let atOrigin := Sample.spot "at-origin" lat lon 5 in
  let farther := Sample.spot "farther" lat' lon' 5 in
  filteredSpots [atOrigin; farther] "" 50 D ["all"] distance (Some origin)
    (LocationContext.calculateDistance M (Some origin))
  = [farther; atOrigin].
Proof.
  intros HM Flat Flon Hd Hpos Hfin HdD HD origin atOrigin farther.
  assert (HA : LocationContext.calculateDistance M (Some origin)
                 (ParkingSpot.location atOrigin) = Some 0).
  { simpl. f_equal. now apply GeoFacts.calculateDistance_same. }
  assert (HB : LocationContext.calculateDistance M (Some origin)
                 (ParkingSpot.location farther) = Some d).
  { simpl. f_equal. exact Hd. }
  destruct (positive_distance_before_Infinity d Hpos Hfin) as [Ht Hlt].
  unfold filteredSpots.
  replace (bySpotType ["all"] (byDistance D (Some origin)
             (LocationContext.calculateDistance M (Some origin))
             (byPrice 50 (byQuery "" [atOrigin; farther]))))
    with [atOrigin; farther].
  2:{ change (byPrice 50 (byQuery "" [atOrigin; farther])) with [atOrigin; farther].
      unfold byDistance. cbn [List.filter]. unfold withinDistance.
      rewrite HA, HB, HdD, HD. reflexivity. }
  unfold JS.sort. cbn [List.fold_right JS.insert]. unfold JS.comes_after, compareSpots.
  rewrite HA, HB. unfold JS.number_or. rewrite Ht.
  replace (JS.truthy 0) with false by reflexivity. rewrite Hlt. reflexivity.
Qed.

(** C3 (failing input): user at (0, 0); the listings, newest first, are
    one at (0, 0) and one at (0, 0.1), both within the distance ceiling.
    Sorted by distance the output starts with the farther listing (about
    11.1 km) and ends with the one at distance 0, so it is not ascending
    by distance. *)
Theorem distance_sort_puts_zero_distance_last_example :
  let origin := Sample.location 0 0 in
  let atOrigin := Sample.spot "at-origin" 0 0 5 in
  let nearby := Sample.spot "nearby" 0 0.1 5 in
  let calculateDistance := LocationContext.calculateDistance Math.smallAngle (Some origin) in
  filteredSpots [atOrigin; nearby] "" 50 25 ["all"] distance (Some origin) calculateDistance
  = [nearby; atOrigin]
  /\ calculateDistance (ParkingSpot.location atOrigin) = Some 0
  /\ (exists d, calculateDistance (ParkingSpot.location nearby) = Some d
                /\ PrimFloat.ltb 0 d = true /\ PrimFloat.ltb 11 d = true
                /\ PrimFloat.ltb d 11.2 = true).
Proof.
  intros origin atOrigin nearby calculateDistance.
  split; [vm_compute; reflexivity|]. split; [vm_compute; reflexivity|].
  eexists. split; [reflexivity|]. vm_compute. auto.
Qed.

End SearchFacts.

(** ** Requests to the backend *)

Module BackendFacts.
Import Firebase Notions.

(** Running [request] when the next request meets no fault. *)
Lemma request_ok r b :
  next_fault b = None ->
  exists fs, request r b = (Async.Resolved tt, set_traffic (requests b ++ [r]) fs b).
Proof.
  unfold next_fault, request. destruct (faults b) as [|[e|] fs]; intros H;
    try discriminate; eauto.
Qed.

Lemma request_fault r b e :
  next_fault b = Some e ->
  exists fs, request r b = (Async.Rejected e, set_traffic (requests b ++ [r]) fs b).
Proof.
  unfold next_fault, request. destruct (faults b) as [|[e'|] fs]; intros H;
    try discriminate. injection H as ->. eauto.
Qed.

(** Requests change the traffic log and the fault script only. *)
Lemma request_frame r b o b' :
  request r b = (o, b') ->
  accounts b' = accounts b /\ currentUser b' = currentUser b /\ users b' = users b
  /\ serverTime b' = serverTime b.
Proof.
  unfold request. destruct (faults b) as [|[e|] fs]; intros [= <- <-]; auto.
Qed.

End BackendFacts.

(** ** ListingStore: the Firestore service and the listings context *)

Module ListingFacts.
Import Firebase ParkingSpotsService ParkingSpotsContext Notions BackendFacts.

Lemma In_imap {A B} (f : nat -> A -> B) (l : list A) i x :
  l !! i = Some x -> In (f i x) (imap f l).
Proof.
  intros H. apply list_elem_of_In, list_elem_of_lookup. exists i.
  rewrite list_lookup_imap, H. reflexivity.
Qed.

(** C10: a document without [isAvailable] is converted to an available
    listing and therefore delivered in the [allAvailable] view; a
    document without [imageURLs] is converted to a listing with the empty
    image list. *)
Theorem missing_isAvailable_is_true_and_missing_imageURLs_is_empty :
  (forall clock docs i docId data,
      docs !! i = Some (docId, data) ->
      SpotData.isAvailable data = None ->
      ParkingSpot.isAvailable (convertDocToSpot (clock i) docId data) = true
      /\ In (convertDocToSpot (clock i) docId data) (subscribeToSpots_onNext clock docs))
  /\ (forall now docId data,
         SpotData.imageURLs data = None ->
         ParkingSpot.imageURLs (convertDocToSpot now docId data) = []).
Proof.
  split.
  - intros clock docs i docId data Hi Hav.
    assert (E : ParkingSpot.isAvailable (convertDocToSpot (clock i) docId data) = true)
      by (simpl; rewrite Hav; reflexivity).
    split; [exact E|].
    unfold subscribeToSpots_onNext. apply SortFacts.In_sort, filter_In. split; [|exact E].
    apply (In_imap (fun i d => convertDocToSpot (clock i) d.1 d.2) docs i (docId, data) Hi).
  - intros now docId data H. simpl. rewrite H. reflexivity.
Qed.

Lemma missing_isAvailable_is_true_and_missing_imageURLs_is_empty_witness :
  let clock := fun _ : nat => 1700000009000%float in
  let spot := convertDocToSpot (clock 0) "s1" Sample.spotData in
  (ParkingSpot.isAvailable spot = true
   /\ In spot (subscribeToSpots_onNext clock [("s1", Sample.spotData)]))
  /\ ParkingSpot.imageURLs spot = [].
Proof.
  intros clock spot.
  destruct missing_isAvailable_is_true_and_missing_imageURLs_is_empty as [H1 H2].
  split.
  - apply (H1 clock [("s1", Sample.spotData)] 0 "s1" Sample.spotData); reflexivity.
  - apply H2. reflexivity.
Defined.

(** [has_undefined] finds exactly the payloads with a value that
    Firestore refuses. *)
Lemma has_undefined_spec (payload : DocumentData) :
  has_undefined payload = true <->
  exists k v, payload !! k = Some v /\ unsupported v = true.
Proof.
  unfold has_undefined. rewrite existsb_exists. split.
  - intros ([k v] & Hin & Hv). exists k, v. split; [|exact Hv].
    apply elem_of_map_to_list, list_elem_of_In. exact Hin.
  - intros (k & v & Hk & Hv). exists (k, v). split; [|exact Hv].
    apply list_elem_of_In, elem_of_map_to_list. exact Hk.
Qed.

(** The two ways [updateParkingSpot] ends. *)
Lemma updateParkingSpot_cases spotId data b :
  let payload := <["updatedAt" := VServerTimestamp]> (delete "createdAt" (delete "id" data)) in
  let out := updateParkingSpot spotId data b in
  (exists doc, has_undefined payload = false /\ next_fault b = None
     /\ parkingSpots b !! spotId = Some doc
     /\ fst out = Async.Resolved tt
     /\ parkingSpots (snd out)
        = <[spotId := (commit (serverTime b) <$> payload) ∪ doc]> (parkingSpots b)
     /\ requests (snd out) = requests b ++ [UpdateDoc "parkingSpots" spotId payload])
  \/ ((has_undefined payload = true \/ next_fault b <> None
       \/ parkingSpots b !! spotId = None)
      /\ fst out = Async.Rejected (JS.new_Error "Failed to update parking spot")
      /\ parkingSpots (snd out) = parkingSpots b
      /\ console (snd out) = console b ++ ["Error updating parking spot:"]
      /\ requests (snd out)
         = requests b ++ (if has_undefined payload then []
                          else [UpdateDoc "parkingSpots" spotId payload])).
Proof.
  intros payload out. unfold out, updateParkingSpot, Async.try_catch, updateDoc.
  fold payload. destruct (has_undefined payload) eqn:Hu.
  - right. simpl. rewrite app_nil_r. auto 10.
  - unfold Async.bind, request, next_fault.
    destruct (faults b) as [|[e|] fs]; simpl.
    + destruct (parkingSpots b !! spotId) as [doc|] eqn:E; simpl.
      * left. exists doc. auto 10.
      * right. auto 10.
    + right. split; [right; left; discriminate | auto].
    + destruct (parkingSpots b !! spotId) as [doc|] eqn:E; simpl.
      * left. exists doc. auto 10.
      * right. auto 10.
Qed.





(** The local views, by contrast, merge the update object as it was
    passed: its [id] and [createdAt] do replace the local fields. *)
Remark local_merge_is_not_stripped spot data now other created :
  data !! "id" = Some (VString other) ->
  data !! "createdAt" = Some (VDate created) ->
  ParkingSpot.id (assign spot data now) = other
  /\ ParkingSpot.createdAt (assign spot data now) = created.
Proof. intros Hid Hcr. unfold assign. simpl. rewrite Hid, Hcr. auto. Qed.





End ListingFacts.

(** ** SessionStore: sign-in and sign-out *)

Module SessionFacts.
Import Firebase AuthService Notions BackendFacts.

(** C2 (as amended): [signOut] always ends with [isLoading] reset; the
    session is cleared to unauthenticated when the remote sign-out
    succeeds, and when it fails the mapped error is propagated and the
    session user is left as it was. *)
Theorem signOut_clears_session_when_remote_succeeds b s :
  let out := AuthContext.signOut (b, s) in
  AuthContext.isLoading (snd (snd out)) = false
  /\ match next_fault b with
     | None =>
         fst out = Async.Resolved tt
         /\ AuthContext.user (snd (snd out)) = None
         /\ currentUser (fst (snd out)) = None
     | Some e =>
         fst out = Async.Rejected (handleAuthError e)
         /\ AuthContext.user (snd (snd out)) = AuthContext.user s
         /\ currentUser (fst (snd out)) = currentUser b
     end.
Proof.
  intros out. unfold out, AuthContext.signOut, Async.bind, Async.try_finally,
    Async.on_fst, signOut, Async.try_catch, firebaseSignOut, Async.bind,
    Async.modify_snd, Async.modify.
  cbn [fst snd].
  destruct (next_fault b) as [e|] eqn:Hf.
  - destruct (request_fault SignOut b e Hf) as [fs ->].
    cbn -[handleAuthError]. auto.
  - destruct (request_ok SignOut b Hf) as [fs ->]. cbn. auto.
Qed.

(** C2 (counterexample): a signed-in session whose remote sign-out fails
    with a network error: [signOut] rejects and the user is still set. *)
Lemma signOut_keeps_user_when_remote_fails_counterexample :
  let out := AuthContext.signOut (Sample.backend [Some Sample.networkError], Sample.authState) in
  fst out = Async.Rejected (JS.new_Error "Network error. Please check your connection.")
  /\ AuthContext.user (snd (snd out)) = Some Sample.user
  /\ AuthContext.user (snd (snd out)) <> None.
Proof. repeat split. discriminate. Qed.

Lemma signInWithEmailAndPassword_resolved email password b fu b1 :
  signInWithEmailAndPassword email password b = (Async.Resolved fu, b1) ->
  (exists a, List.find (credentials_match email password) (accounts b) = Some a
             /\ fu = account_user a)
  /\ currentUser b1 = Some fu /\ users b1 = users b /\ serverTime b1 = serverTime b.
Proof.
  unfold signInWithEmailAndPassword, Async.bind, Async.get.
  destruct (request _ b) as [[[]|e] b0] eqn:R; [|discriminate].
  apply request_frame in R as (Ha & _ & Hu & Ht). rewrite Ha.
  destruct (List.find _ (accounts b)) as [a|]; [|discriminate].
  unfold Async.modify, Async.ret. intros [= <- <-]. simpl. eauto 10.
Qed.

Lemma getUserData_spec now uid b :
  exists o b2,
    getUserData now uid b = (Async.Resolved o, b2)
    /\ users b2 = users b /\ currentUser b2 = currentUser b
    /\ serverTime b2 = serverTime b
    /\ (forall u, o = Some u -> User.uid u = uid /\ is_Some (users b !! uid))
    /\ (users b !! uid = None -> o = None).
Proof.
  unfold getUserData, Async.try_catch, getDoc_users, Async.bind, Async.get.
  destruct (request _ b) as [[[]|e] b0] eqn:R;
    apply request_frame in R as (_ & Hc & Hu & Ht).
  - rewrite Hu. destruct (users b !! uid) as [data|] eqn:E; simpl;
      eexists _, _; (split; [reflexivity|]); repeat split; auto;
      try discriminate.
    injection H as <-. reflexivity.
  - simpl. eexists _, _. split; [reflexivity|]. repeat split; auto; discriminate.
Qed.

Lemma setDoc_users_resolved uid doc b b3 :
  setDoc_users uid doc b = (Async.Resolved tt, b3) ->
  users b3 = <[uid := doc]> (users b) /\ currentUser b3 = currentUser b.
Proof.
  unfold setDoc_users, Async.bind, Async.modify.
  destruct (request _ b) as [[[]|e] b0] eqn:R; [|discriminate].
  apply request_frame in R as (_ & Hc & Hu & _).
  intros [= <-]. simpl. rewrite Hu, Hc. auto.
Qed.

(** C7: after a successful email/password sign-in the backend holds an
    identity record for the user and a record is returned; when the
    backend had no record, the one written and the one returned have role
    "user" and, as name, the auth provider's display name or else the
    part of the email before the '@'.  With matching credentials and no
    backend fault the sign-in does succeed, and the auth context then
    holds the returned record. *)
Theorem signIn_synthesizes_missing_record now email password b :
  (forall u b',
      signIn now email password b = (Async.Resolved u, b') ->
      exists firebaseUser,
        currentUser b' = Some firebaseUser
        /\ User.uid u = FirebaseUser.uid firebaseUser
        /\ is_Some (users b' !! User.uid u)
        /\ (users b !! User.uid u = None ->
            let name := JS.string_or (FirebaseUser.displayName firebaseUser)
                          (JS.split_at_head email) in
            (exists doc, users b' !! User.uid u = Some doc
                         /\ UserDoc.role doc = UserRole.USER
                         /\ UserDoc.name doc = name)
            /\ User.role u = UserRole.USER
            /\ User.name u = name))
  /\ (forall a,
         faults b = [] ->
         List.find (credentials_match email password) (accounts b) = Some a ->
         exists u b', signIn now email password b = (Async.Resolved u, b'))
  /\ (forall s u b',
         signIn now email password b = (Async.Resolved u, b') ->
         exists s', AuthContext.signIn now email password (b, s)
                    = (Async.Resolved tt, (b', s'))
                    /\ AuthContext.user s' = Some u).
Proof.
  split; [|split].
  - intros u b' H. unfold signIn, Async.try_catch in H.
    destruct (Async.bind _ _ b) as [[u0|e] b0] eqn:E;
      [injection H as -> -> | discriminate].
    unfold Async.bind in E.
    destruct (signInWithEmailAndPassword email password b) as [[fu|e] b1] eqn:E1;
      [|discriminate].
    apply signInWithEmailAndPassword_resolved in E1 as (_ & Hc1 & Hu1 & Ht1).
    destruct (getUserData_spec now (FirebaseUser.uid fu) b1)
      as (o & b2 & E2 & Hu2 & Hc2 & Ht2 & Hsome & Hnone).
    rewrite E2 in E. exists fu.
    destruct o as [userData|].
    + injection E as -> ->. destruct (Hsome u eq_refl) as [Huid Hex].
      rewrite Hu2, Hu1, Hc2, Hc1, Huid. rewrite Hu1 in Hex.
      split; [reflexivity|]. split; [reflexivity|]. split; [exact Hex|].
      intros Habs. rewrite Habs in Hex. destruct Hex; discriminate.
    + unfold Async.get in E.
      destruct (setDoc_users _ _ b2) as [[[]|e] b3] eqn:E3; [|discriminate].
      apply setDoc_users_resolved in E3 as [Hu3 Hc3].
      injection E as <- <-. simpl. rewrite Hu3, Hc3, Hc2, Hc1, lookup_insert_eq.
      split; [reflexivity|]. split; [reflexivity|]. split; [eauto|].
      intros _. split; [|split; reflexivity].
      eexists. split; [reflexivity|]. split; reflexivity.
  - intros a Hf Hfind.
    unfold signIn, getUserData, getDoc_users, setDoc_users, signInWithEmailAndPassword,
      request, Async.try_catch, Async.bind, Async.get, Async.modify, Async.ret.
    rewrite Hf. cbn -[handleAuthError]. rewrite Hfind. cbn -[handleAuthError].
    destruct (users b !! FirebaseUser.uid (account_user a)); cbn -[handleAuthError]; eauto.
  - intros s u b' H. unfold AuthContext.signIn, Async.bind, Async.try_catch,
      Async.on_fst, Async.modify_snd, Async.modify. cbn [fst snd].
    rewrite H. cbn. eauto.
Qed.

Lemma signIn_synthesizes_missing_record_witness :
  exists u b',
    signIn 1700000009000%float "a@b.com" "abcd1234" (Sample.backend []) = (Async.Resolved u, b')
    /\ (exists doc, users b' !! "u1" = Some doc
                    /\ UserDoc.role doc = UserRole.USER /\ UserDoc.name doc = "a")
    /\ User.role u = UserRole.USER /\ User.name u = "a".
Proof.
  destruct (signIn_synthesizes_missing_record 1700000009000%float "a@b.com" "abcd1234"
              (Sample.backend [])) as (Hres & Hrun & _).
  destruct (Hrun _ eq_refl eq_refl) as (u & b' & E).
  exists u, b'. split; [exact E|].
  destruct (Hres u b' E) as (fu & _ & _ & _ & Habs).
  assert (Eu : u = {| User.uid := "u1"; User.email := "a@b.com"; User.name := "a";
                      User.role := UserRole.USER; User.photoURL := None;
                      User.phone := None; User.createdAt := 1700000009000%float;
                      User.updatedAt := 1700000009000%float |}
               /\ currentUser b' = Some Sample.firebaseUser).
  { vm_compute in E. injection E as <- <-. split; reflexivity. }
  destruct Eu as [-> Hc].
  destruct (Hres _ b' E) as (fu' & Hfu & _ & _ & Habs').
  rewrite Hc in Hfu. injection Hfu as <-.
  exact (Habs' eq_refl).
Defined.

End SessionFacts.

(** ** LocationSession: [getCurrentLocation] *)

Module LocationFacts.
Import ExpoLocation LocationContext Notions.

(** The position read only logs: its result is the device's. *)
Lemma readPosition_result dev s s' :
  fst (readPosition dev s) = fst (readPosition dev s').
Proof.
  unfold readPosition, getPositionWithTimeout, Async.try_catch, Async.bind, await.
  destruct (getCurrentPositionAsync dev) as [[p|e]|]; simpl; reflexivity.
Qed.

Lemma readPosition_state dev s :
  userLocation (snd (readPosition dev s)) = userLocation s
  /\ isLoading (snd (readPosition dev s)) = isLoading s
  /\ error (snd (readPosition dev s)) = error s.
Proof.
  unfold readPosition, getPositionWithTimeout, Async.try_catch, Async.bind, await.
  destruct (getCurrentPositionAsync dev) as [[p|e]|]; simpl; auto.
Qed.

(** Once a position has been read, a failing reverse geocoding leaves the
    bare coordinate point, which [locate] stores and returns. *)
Lemma locate_with_failed_geocoding dev s position e :
  fst (readPosition dev s) = Async.Resolved (Some position) ->
  reverseGeocodeAsync dev (coords_latitude position) (coords_longitude position)
  = Async.Rejected e ->
  let point := {| Location.latitude := coords_latitude position;
                  Location.longitude := coords_longitude position;
                  Location.address := None; Location.city := None;
                  Location.state := None; Location.zipCode := None |} in
  fst (locate dev s) = Async.Resolved (Some point)
  /\ userLocation (snd (locate dev s)) = Some point
  /\ isLoading (snd (locate dev s)) = false
  /\ error (snd (locate dev s)) = error s.
Proof.
  intros Hpos Hgeo point.
  destruct (readPosition_state dev s) as (_ & _ & He).
  unfold locate, Async.bind.
  destruct (readPosition dev s) as [r s1]. simpl in Hpos, He. subst r.
  unfold withAddress, Async.try_catch, Async.bind, await. cbn [Location.latitude Location.longitude].
  rewrite Hgeo. simpl. auto.
Qed.

(** C8: when the permission check passes and a position is read (live or
    last known), a failure of the reverse geocoding does not fail
    [getCurrentLocation]: it stores and returns the coordinate point with
    the address, city, state and postal code left undefined, and no error
    is set. *)
Theorem geocoding_failure_is_not_fatal dev s position e :
  permission_obtained dev = true ->
  fst (readPosition dev s) = Async.Resolved (Some position) ->
  reverseGeocodeAsync dev (coords_latitude position) (coords_longitude position)
  = Async.Rejected e ->
  let out := getCurrentLocation dev s in
  let point := {| Location.latitude := coords_latitude position;
                  Location.longitude := coords_longitude position;
                  Location.address := None; Location.city := None;
                  Location.state := None; Location.zipCode := None |} in
  fst out = Async.Resolved (Some point)
  /\ userLocation (snd out) = Some point
  /\ isLoading (snd out) = false
  /\ error (snd out) = None.
Proof.
  intros Hperm Hpos Hgeo out point.
  assert (L : forall s1, error s1 = None ->
                fst (locate dev s1) = Async.Resolved (Some point)
                /\ userLocation (snd (locate dev s1)) = Some point
                /\ isLoading (snd (locate dev s1)) = false
                /\ error (snd (locate dev s1)) = None).
  { intros s1 He. rewrite <- He.
    apply (locate_with_failed_geocoding dev s1 position e); [|exact Hgeo].
    rewrite (readPosition_result dev s1 s). exact Hpos. }
  unfold permission_obtained in Hperm.
  unfold out, getCurrentLocation, Async.bind, Async.try_catch, Async.modify, await.
  destruct (getForegroundPermissionsAsync dev) as [p|e0]; [|discriminate].
  destruct (is_granted (status p)).
  - match goal with |- context [locate dev ?s1] => destruct (L s1 eq_refl) as (A & B & C & D) end.
    destruct (locate dev _) as [r s2]. simpl in A, B, C, D. subst r. cbn -[errorMessage]. auto.
  - simpl in Hperm. destruct (canAskAgain p); [|discriminate]. simpl in Hperm.
    unfold requestPermission, Async.try_catch, Async.bind, await, Async.ret.
    destruct (requestForegroundPermissionsAsync dev) as [p'|e']; [|discriminate].
    rewrite Hperm.
    match goal with |- context [locate dev ?s1] => destruct (L s1 eq_refl) as (A & B & C & D) end.
    destruct (locate dev _) as [r s2]. simpl in A, B, C, D. subst r. cbn -[errorMessage]. auto.
Qed.

Lemma geocoding_failure_is_not_fatal_witness :
  let out := getCurrentLocation Sample.device Sample.locationState in
  fst out = Async.Resolved (Some (Sample.location 43.65%float (-79.38)%float))
  /\ userLocation (snd out) = Some (Sample.location 43.65%float (-79.38)%float)
  /\ isLoading (snd out) = false
  /\ error (snd out) = None.
Proof.
  exact (geocoding_failure_is_not_fatal Sample.device Sample.locationState
           {| coords_latitude := 43.65%float; coords_longitude := (-79.38)%float |}
           (JS.new_Error "Geocoder unavailable") eq_refl eq_refl eq_refl).
Defined.

End LocationFacts.

(* ================================================================== *)
(** * Part III: further properties of the code *)
(* ================================================================== *)

(** ** The order of doubles

    [<] and [<=] on doubles are read from [SFcompare]; the sign of a
    difference [x - y] agrees with the comparison of [x] and [y] because
    mantissas are canonical and a non-zero difference never rounds to
    zero. *)

Module FloatOrder.
Import Notions FloatFacts.
Local Open Scope Z_scope.

Lemma iter_xO_mul m d : Z.pos (Pos.iter xO m d) = Z.pos m * 2 ^ Z.pos d.
Proof.
  revert m. induction d using Pos.peano_ind; intros m.
  - simpl. lia.
  - rewrite Pos.iter_succ.
    rewrite Pos2Z.inj_xO, IHd, Pos2Z.inj_succ, Z.pow_succ_r by lia. lia.
Qed.

Lemma shl_align_fst mx ex ez :
  ez <= ex -> Z.pos (fst (shl_align mx ex ez)) = Z.pos mx * 2 ^ (ex - ez).
Proof.
  intros H. unfold shl_align. destruct (ez - ex) as [|d|d] eqn:E.
  - replace (ex - ez) with 0 by lia. simpl. lia.
  - lia.
  - simpl fst. rewrite iter_xO_mul. f_equal. f_equal. lia.
Qed.

Lemma shl_align_snd mx ex ez : snd (shl_align mx ex ez) = Z.min ex ez.
Proof.
  unfold shl_align. destruct (ez - ex) as [|d|d] eqn:E; simpl; lia.
Qed.

Lemma Zdigits2_pos_bounds p :
  2 ^ (Zdigits2 (Z.pos p) - 1) <= Z.pos p < 2 ^ Zdigits2 (Z.pos p).
Proof.
  rewrite Zdigits2_log2 by lia.
  pose proof (Z.log2_spec (Z.pos p) ltac:(lia)) as H.
  replace (Z.log2 (Z.pos p) + 1 - 1) with (Z.log2 (Z.pos p)) by lia.
  replace (Z.log2 (Z.pos p) + 1) with (Z.succ (Z.log2 (Z.pos p))) by lia. exact H.
Qed.

Lemma shiftr_pos m k : 0 < m -> 0 <= k -> k <= Zdigits2 m - 1 -> 0 < Z.shiftr m k.
Proof.
  intros Hm Hk Hd. destruct m as [|p|p]; try lia.
  rewrite Z.shiftr_div_pow2 by lia.
  pose proof (Zdigits2_pos_bounds p) as [L _].
  assert (2 ^ k <= 2 ^ (Zdigits2 (Z.pos p) - 1)) by (apply Z.pow_le_mono_r; lia).
  apply Z.div_str_pos. split; [apply Z.pow_pos_nonneg; lia | lia].
Qed.

(** Rounding a positive mantissa at an exponent of the format keeps the
    sign and never gives a zero. *)
Lemma binary_round_aux_signed s p e :
  -1074 <= e -> SF_signed s (binary_round_aux prec emax s (Z.pos p) e loc_Exact).
Proof.
  intros He. unfold binary_round_aux.
  assert (Hf : forall t, fexp prec emax t = Z.max (t - 53) (-1074)) by reflexivity.
  destruct (shr_fexp_spec (Z.pos p) e loc_Exact) as (mrs1 & E1 & M1); [lia|].
  rewrite E1. set (e1 := Z.max e (fexp prec emax (Zdigits2 (Z.pos p) + e))) in *.
  set (m2 := round_nearest_even (shr_m mrs1) (loc_of_shr_record mrs1)).
  assert (H1 : 0 < shr_m mrs1).
  { rewrite M1. pose proof (Zdigits2_pos_bounds p).
    assert (0 < Zdigits2 (Z.pos p)) by (simpl; lia).
    apply shiftr_pos; try lia; unfold e1; rewrite Hf; lia. }
  pose proof (round_nearest_even_bounds (shr_m mrs1) (loc_of_shr_record mrs1) ltac:(lia))
    as B2.
  fold m2 in B2.
  destruct (shr_fexp_spec m2 e1 loc_Exact) as (mrs2 & E2 & M2); [lia|].
  rewrite E2. set (e2 := Z.max e1 (fexp prec emax (Zdigits2 m2 + e1))) in *.
  assert (He1 : -1074 <= e1) by (unfold e1; lia).
  assert (H2 : 0 < shr_m mrs2).
  { rewrite M2.
    assert (0 < Zdigits2 m2) by (destruct m2; simpl; lia).
    apply shiftr_pos; try lia; unfold e2; rewrite Hf; lia. }
  destruct (shr_m mrs2) as [|q|q]; try lia.
  destruct (_ <=? _); [left; eauto | right; reflexivity].
Qed.

Lemma binary_round_signed s p e :
  -1074 <= e -> SF_signed s (binary_round prec emax s p e).
Proof.
  intros He. unfold binary_round.
  pose proof (shl_align_snd p e (fexp prec emax (Z.pos (digits2_pos p) + e))) as Hs.
  destruct (shl_align _ _ _) as [mz ez]. simpl in Hs.
  apply binary_round_aux_signed.
  assert (Hf : forall t, fexp prec emax t = Z.max (t - 53) (-1074)) by reflexivity.
  rewrite Hf in Hs. lia.
Qed.

Lemma valid_canonical (x : float) s m e :
  Prim2SF x = S754_finite s m e ->
  Zdigits2 (Z.pos m) <= 53 /\ -1074 <= e
  /\ (Zdigits2 (Z.pos m) = 53 \/ e = -1074).
Proof.
  intros E. pose proof (Prim2SF_valid x) as V. rewrite E in V.
  unfold valid_binary, bounded, canonical_mantissa in V.
  apply andb_prop in V as [C B]. apply Z.eqb_eq in C.
  change (fexp prec emax (Z.pos (digits2_pos m) + e))
    with (Z.max (Z.pos (digits2_pos m) + e - 53) (-1074)) in C.
  simpl Zdigits2. lia.
Qed.

(** Of two canonical mantissas, the one with the larger exponent is the
    larger number. *)
Lemma canonical_lt m1 e1 m2 e2 :
  Zdigits2 (Z.pos m1) <= 53 ->
  Zdigits2 (Z.pos m2) = 53 ->
  e1 < e2 ->
  Z.pos m1 < Z.pos m2 * 2 ^ (e2 - e1).
Proof.
  intros D1 D2 He.
  pose proof (Zdigits2_pos_bounds m1) as [_ U1].
  pose proof (Zdigits2_pos_bounds m2) as [L2 _].
  rewrite D2 in L2.
  assert (H53 : 2 ^ Zdigits2 (Z.pos m1) <= 2 ^ 53) by (apply Z.pow_le_mono_r; lia).
  assert (H1 : 2 ^ 1 <= 2 ^ (e2 - e1)) by (apply Z.pow_le_mono_r; lia).
  change (2 ^ (53 - 1)) with 4503599627370496 in L2.
  change (2 ^ 53) with 9007199254740992 in H53.
  change (2 ^ 1) with 2 in H1. nia.
Qed.

Lemma SFltb_zero_signed s r :
  SF_signed s r -> SFltb (S754_zero false) r = negb s.
Proof. intros [(m & e & ->)| ->]; destruct s; reflexivity. Qed.

Lemma normalize_positive m e :
  -1074 <= e ->
  SFltb (S754_zero false) (binary_normalize prec emax m e false) = (0 <? m).
Proof.
  intros He. destruct m as [|p|p]; simpl binary_normalize.
  - reflexivity.
  - rewrite (SFltb_zero_signed false) by (apply binary_round_signed; assumption).
    reflexivity.
  - rewrite (SFltb_zero_signed true) by (apply binary_round_signed; assumption).
    reflexivity.
Qed.

Ltac sf_cases :=
  repeat match goal with
         | s : bool |- _ => destruct s
         end;
  simpl; try reflexivity; try discriminate; try tauto.

Ltac cmp_cases :=
  repeat match goal with
         | |- context [Z.compare ?a ?b] => destruct (Z.compare_spec a b)
         | H : context [Z.compare ?a ?b] |- _ => destruct (Z.compare_spec a b)
         | |- context [Pos.compare ?a ?b] => destruct (Pos.compare_spec a b)
         | H : context [Pos.compare ?a ?b] |- _ => destruct (Pos.compare_spec a b)
         end;
  simpl in *; try reflexivity; try discriminate; try lia.

Lemma SFleb_trans x y z :
  SFleb x y = true -> SFleb y z = true -> SFleb x z = true.
Proof.
  unfold SFleb, SFcompare.
  destruct x as [sx|sx| |sx mx ex], y as [sy|sy| |sy my ey], z as [sz|sz| |sz mz ez];
    sf_cases; rewrite ?Pos.compare_cont_spec; simpl Pos.switch_Eq; intros; cmp_cases.
Qed.

Lemma SFltb_asym x y : SFltb x y = true -> SFltb y x = false.
Proof.
  unfold SFltb, SFcompare.
  destruct x as [sx|sx| |sx mx ex], y as [sy|sy| |sy my ey];
    sf_cases; rewrite ?Pos.compare_cont_spec; simpl Pos.switch_Eq; intros; cmp_cases.
Qed.

Lemma SFleb_total x y :
  x <> S754_nan -> y <> S754_nan -> SFltb y x = negb (SFleb x y).
Proof.
  unfold SFltb, SFleb, SFcompare.
  destruct x as [sx|sx| |sx mx ex], y as [sy|sy| |sy my ey];
    try congruence; intros _ _;
    sf_cases; rewrite ?Pos.compare_cont_spec; simpl Pos.switch_Eq; cmp_cases.
Qed.

Lemma SFeqb_ltb x y c :
  SFeqb x c = true -> SFeqb y c = true -> SFltb y x = false.
Proof.
  unfold SFeqb, SFltb, SFcompare.
  destruct x as [sx|sx| |sx mx ex], y as [sy|sy| |sy my ey], c as [sc|sc| |sc mc ec];
    sf_cases; rewrite ?Pos.compare_cont_spec; simpl Pos.switch_Eq; intros; cmp_cases.
Qed.

Local Open Scope float_scope.

(** [x - y] is positive exactly when [y < x], for all doubles. *)
Lemma sub_pos_iff_lt (x y : float) : (0 <? x - y) = (y <? x).
Proof.
  rewrite !FloatAxioms.ltb_spec, FloatAxioms.sub_spec.
  replace (Prim2SF 0) with (S754_zero false) by reflexivity.
  destruct (Prim2SF x) as [sx|sx| |sx mx ex] eqn:Ex,
           (Prim2SF y) as [sy|sy| |sy my ey] eqn:Ey;
    try (destruct sx; reflexivity); try (destruct sy; reflexivity);
    try (destruct sx, sy; reflexivity); try reflexivity.
  destruct (valid_canonical x sx mx ex Ex) as (Dx & Lx & Cx).
  destruct (valid_canonical y sy my ey Ey) as (Dy & Ly & Cy).
  unfold SF64sub, SFsub.
  rewrite normalize_positive by lia.
  rewrite !shl_align_fst by lia.
  assert (Px : (0 < 2 ^ (ex - Z.min ex ey))%Z) by (apply Z.pow_pos_nonneg; lia).
  assert (Py : (0 < 2 ^ (ey - Z.min ex ey))%Z) by (apply Z.pow_pos_nonneg; lia).
  unfold SFltb, SFcompare.
  destruct (Z.compare_spec ey ex) as [E|E|E].
  - subst ey. rewrite Z.min_id, !Z.sub_diag, !Z.mul_1_r in *.
    rewrite Pos.compare_cont_spec. simpl Pos.switch_Eq.
    destruct sx, sy; simpl cond_Zopp;
      destruct (Pos.compare_spec my mx); simpl; lia.
  - assert (Dx' : Zdigits2 (Z.pos mx) = 53%Z) by lia.
    pose proof (canonical_lt my ey mx ex Dy Dx' E).
    replace (Z.min ex ey) with ey in * by lia. rewrite Z.sub_diag, Z.mul_1_r in *.
    destruct sx, sy; simpl cond_Zopp; simpl; lia.
  - assert (Dy' : Zdigits2 (Z.pos my) = 53%Z) by lia.
    pose proof (canonical_lt mx ex my ey Dx Dy' E).
    replace (Z.min ex ey) with ex in * by lia. rewrite Z.sub_diag, Z.mul_1_r in *.
    destruct sx, sy; simpl cond_Zopp; simpl; lia.
Qed.

Lemma is_nan_SF (x : float) : is_nan x = false <-> Prim2SF x <> S754_nan.
Proof.
  unfold is_nan. rewrite FloatAxioms.eqb_spec.
  destruct (Prim2SF x) as [[]|[]| |s m e].
  1-4: split; [intros _; discriminate | reflexivity].
  - split; [discriminate | congruence].
  - unfold SFeqb, SFcompare.
    destruct s; rewrite Z.compare_refl, Pos.compare_cont_refl;
      (split; [intros _; discriminate | reflexivity]).
Qed.

Lemma leb_trans (x y z : float) :
  (x <=? y) = true -> (y <=? z) = true -> (x <=? z) = true.
Proof. rewrite !FloatAxioms.leb_spec. apply SFleb_trans. Qed.

Lemma ltb_asym (x y : float) : (x <? y) = true -> (y <? x) = false.
Proof. rewrite !FloatAxioms.ltb_spec. apply SFltb_asym. Qed.

Lemma ltb_negb_leb (x y : float) :
  is_nan x = false -> is_nan y = false -> (y <? x) = negb (x <=? y).
Proof.
  rewrite !is_nan_SF, FloatAxioms.ltb_spec, FloatAxioms.leb_spec. apply SFleb_total.
Qed.

Lemma leb_not_nan (x y : float) :
  (x <=? y) = true -> is_nan x = false /\ is_nan y = false.
Proof.
  rewrite FloatAxioms.leb_spec, !is_nan_SF. unfold SFleb, SFcompare.
  destruct (Prim2SF x), (Prim2SF y); try discriminate; split; congruence.
Qed.

Lemma eqb_ltb (x y c : float) :
  (x =? c) = true -> (y =? c) = true -> (y <? x) = false.
Proof. rewrite !FloatAxioms.eqb_spec, FloatAxioms.ltb_spec. apply SFeqb_ltb. Qed.

(** A truthy number is not [NaN], and neither is [x || d] for such a [d]. *)
Lemma number_or_not_nan (x : option float) (d : float) :
  is_nan d = false -> is_nan (JS.number_or x d) = false.
Proof.
  intros Hd. unfold JS.number_or. destruct x as [v|]; [|exact Hd].
  unfold JS.truthy. destruct (is_nan v) eqn:E; [|rewrite orb_false_r].
  - rewrite orb_true_r. exact Hd.
  - destruct (v =? 0); simpl; assumption.
Qed.

Lemma SFltb_leb x y : SFltb x y = true -> SFleb x y = true.
Proof.
  unfold SFltb, SFleb. destruct (SFcompare x y) as [[]|]; intros; try discriminate; reflexivity.
Qed.

Lemma ltb_leb (x y : float) : (x <? y) = true -> (x <=? y) = true.
Proof. rewrite FloatAxioms.ltb_spec, FloatAxioms.leb_spec. apply SFltb_leb. Qed.

Lemma leb_total (x y : float) :
  is_nan x = false -> is_nan y = false -> (x <=? y) = false -> (y <=? x) = true.
Proof.
  intros Hx Hy H. apply ltb_leb. rewrite (ltb_negb_leb x y), H by assumption. reflexivity.
Qed.

End FloatOrder.

(** ** Sorting with a comparator that follows an order

    When, on the elements at hand, [comparefn a b > 0] says exactly that
    [a] is not below [b] in a total preorder [le], the sort returns a list
    ordered by [le], leaves an ordered list as it is, and keeps tied
    elements in their input order. *)

Module SortOrder.
Import SortFacts.
Section Ordered.
Context {A : Type}.
Variable comparefn : A -> A -> JS.number.
Variable le : A -> A -> bool.
Variable P : A -> Prop.

Hypothesis after_le : forall a b, P a -> P b -> JS.comes_after comparefn a b = negb (le a b).
Hypothesis le_trans : forall a b c, le a b = true -> le b c = true -> le a c = true.
Hypothesis le_total : forall a b, P a -> P b -> le a b = false -> le b a = true.

Lemma insert_sorted x l :
  P x -> Forall P l ->
  StronglySorted (fun a b => le a b = true) l ->
  StronglySorted (fun a b => le a b = true) (JS.insert comparefn x l).
Proof.
  intros Px Pl Hs. induction Hs as [|y l Hs IH Hy]; simpl.
  - repeat constructor.
  - apply Forall_cons in Pl as [Py Pl].
    rewrite after_le by assumption. destruct (le x y) eqn:E; simpl.
    + constructor; [constructor; assumption|].
      constructor; [assumption|].
      eapply List.Forall_impl; [|exact Hy]. intros z Hz. simpl in Hz. eauto.
    + constructor; [auto|].
      apply List.Forall_forall. intros z Hz.
      apply (Permutation_in _ (insert_perm comparefn x l)) in Hz as [<-|Hz].
      * auto.
      * rewrite List.Forall_forall in Hy. auto.
Qed.

Lemma Forall_sort l : Forall P l -> Forall P (JS.sort comparefn l).
Proof.
  rewrite !List.Forall_forall. intros H x Hx. apply In_sort in Hx. auto.
Qed.

Lemma sort_sorted l :
  Forall P l -> StronglySorted (fun a b => le a b = true) (JS.sort comparefn l).
Proof.
  induction l as [|x l IH]; intros Pl.
  - constructor.
  - apply Forall_cons in Pl as [Px Pl]. unfold JS.sort. simpl.
    apply insert_sorted; [assumption| |].
    + apply Forall_sort. assumption.
    + apply IH. assumption.
Qed.

Lemma sort_of_sorted l :
  Forall P l -> StronglySorted (fun a b => le a b = true) l -> JS.sort comparefn l = l.
Proof.
  intros Pl Hs. induction Hs as [|x l Hs IH Hx]; [reflexivity|].
  apply Forall_cons in Pl as [Px Pl].
  unfold JS.sort in *. simpl. rewrite IH by assumption.
  destruct l as [|y l]; [reflexivity|]. simpl.
  apply Forall_cons in Pl as [Py _]. apply Forall_cons in Hx as [Hxy _].
  rewrite after_le, Hxy by assumption. reflexivity.
Qed.

Lemma sort_sort l :
  Forall P l -> JS.sort comparefn (JS.sort comparefn l) = JS.sort comparefn l.
Proof.
  intros Pl. apply sort_of_sorted; [apply Forall_sort | apply sort_sorted]; assumption.
Qed.

End Ordered.

Section Stable.
Context {A : Type}.
Variable comparefn : A -> A -> JS.number.
Variable p : A -> bool.
Hypothesis tied : forall a b, p a = true -> p b = true -> JS.comes_after comparefn a b = false.

Lemma filter_insert x l :
  List.filter p (JS.insert comparefn x l) = List.filter p (x :: l).
Proof.
  induction l as [|y l IH]; [reflexivity|].
  simpl JS.insert. destruct (JS.comes_after comparefn x y) eqn:E; [|reflexivity].
  simpl in *. rewrite IH.
  destruct (p x) eqn:Ex, (p y) eqn:Ey; try reflexivity.
  rewrite tied in E by assumption. discriminate.
Qed.

Lemma filter_sort l :
  List.filter p (JS.sort comparefn l) = List.filter p l.
Proof.
  induction l as [|x l IH]; [reflexivity|].
  unfold JS.sort in *. simpl fold_right. rewrite filter_insert. simpl. rewrite IH. reflexivity.
Qed.

End Stable.
End SortOrder.

(** ** SearchFilterEngine: what [filteredSpots] keeps and how it orders *)

Module SearchOrderFacts.
Import SearchScreen Notions FloatOrder.
Local Open Scope float_scope.

Lemma filter_filter_andb {A} (f g : A -> bool) l :
  List.filter g (List.filter f l) = List.filter (fun x => f x && g x) l.
Proof.
  induction l as [|x l IH]; [reflexivity|]. simpl.
  destruct (f x); simpl; [destruct (g x)|]; rewrite IH; reflexivity.
Qed.

Lemma filter_true {A} (l : list A) : List.filter (fun _ => true) l = l.
Proof. induction l as [|x l IH]; simpl; congruence. Qed.

Lemma filter_all {A} (f : A -> bool) l :
  Forall (fun x => f x = true) l -> List.filter f l = l.
Proof. induction 1 as [|x l H _ IH]; simpl; [|rewrite H, IH]; reflexivity. Qed.

(** The four stages are one filter. *)
Lemma stages_fused spots q P D types uloc calc :
  bySpotType types (byDistance D uloc calc (byPrice P (byQuery q spots)))
  = List.filter (keeps q P D types uloc calc) spots.
Proof.
  unfold bySpotType, byDistance, byPrice, byQuery, keeps.
  destruct (JS.trim_truthy q), uloc, (includes_str types "all"); simpl;
    rewrite ?filter_filter_andb; apply filter_ext; intros x; simpl;
    rewrite ?andb_true_r, ?andb_assoc; reflexivity.
Qed.

Lemma filteredSpots_fused spots q P D types sortBy uloc calc :
  filteredSpots spots q P D types sortBy uloc calc
  = JS.sort (compareSpots sortBy uloc calc) (List.filter (keeps q P D types uloc calc) spots).
Proof. unfold filteredSpots. rewrite stages_fused. reflexivity. Qed.

(** A price that passed [price <= maxPrice] is not [NaN]. *)
Lemma keeps_price q P D types uloc calc spot :
  keeps q P D types uloc calc spot = true ->
  is_nan (ParkingSpot.pricePerHour spot) = false.
Proof.
  unfold keeps, withinPrice. rewrite !andb_true_iff. intros [[[_ H] _] _].
  apply leb_not_nan in H. tauto.
Qed.

Lemma kept_prices q P D types uloc calc spots :
  Forall (fun a => is_nan (ParkingSpot.pricePerHour a) = false)
    (List.filter (keeps q P D types uloc calc) spots).
Proof.
  apply List.Forall_forall. intros x Hx. apply filter_In in Hx as [_ Hx].
  eapply keeps_price; eassumption.
Qed.

(** When each comparator moves a listing behind another. *)
Lemma after_price uloc calc a b :
  JS.comes_after (compareSpots price uloc calc) a b
  = (ParkingSpot.pricePerHour b <? ParkingSpot.pricePerHour a).
Proof. apply sub_pos_iff_lt. Qed.

Lemma after_rating uloc calc a b :
  JS.comes_after (compareSpots rating uloc calc) a b = (ratingKey a <? ratingKey b).
Proof. apply sub_pos_iff_lt. Qed.

Lemma after_distance u calc a b :
  JS.comes_after (compareSpots distance (Some u) calc) a b
  = (distanceKey calc b <? distanceKey calc a).
Proof. apply sub_pos_iff_lt. Qed.

Lemma ratingKey_not_nan spot : is_nan (ratingKey spot) = false.
Proof. apply number_or_not_nan. reflexivity. Qed.

Lemma distanceKey_not_nan calc spot : is_nan (distanceKey calc spot) = false.
Proof. apply number_or_not_nan. reflexivity. Qed.

(** Sorting by the difference of a key that is not [NaN] on the list. *)
Section ByKey.
Context {A : Type}.
Variable comparefn : A -> A -> JS.number.
Variable key : A -> JS.number.
Hypothesis after_key : forall a b, JS.comes_after comparefn a b = (key b <? key a).

Lemma sort_by_key_sorted l :
  Forall (fun a => is_nan (key a) = false) l ->
  StronglySorted (fun a b => (key a <=? key b) = true) (JS.sort comparefn l).
Proof.
  apply (SortOrder.sort_sorted comparefn (fun a b => key a <=? key b)
           (fun a => is_nan (key a) = false)).
  - intros a b Ha Hb. rewrite after_key. apply ltb_negb_leb; assumption.
  - intros a b c. apply leb_trans.
  - intros a b Ha Hb. apply leb_total; assumption.
Qed.

Lemma sort_by_key_fixed l :
  Forall (fun a => is_nan (key a) = false) l ->
  JS.sort comparefn (JS.sort comparefn l) = JS.sort comparefn l.
Proof.
  apply (SortOrder.sort_sort comparefn (fun a b => key a <=? key b)
           (fun a => is_nan (key a) = false)).
  - intros a b Ha Hb. rewrite after_key. apply ltb_negb_leb; assumption.
  - intros a b c. apply leb_trans.
  - intros a b Ha Hb. apply leb_total; assumption.
Qed.

Lemma sort_by_key_stable c l :
  List.filter (fun a => key a =? c) (JS.sort comparefn l)
  = List.filter (fun a => key a =? c) l.
Proof.
  apply SortOrder.filter_sort. intros a b Ha Hb. rewrite after_key.
  eapply eqb_ltb; eassumption.
Qed.

End ByKey.

Lemma sort_compareSpots_fixed sortBy uloc calc l :
  Forall (fun a => is_nan (ParkingSpot.pricePerHour a) = false) l ->
  JS.sort (compareSpots sortBy uloc calc) (JS.sort (compareSpots sortBy uloc calc) l)
  = JS.sort (compareSpots sortBy uloc calc) l.
Proof.
  intros Hl. destruct sortBy.
  - destruct uloc as [u|].
    + apply (sort_by_key_fixed _ (distanceKey calc)).
      * intros a b. apply after_distance.
      * apply List.Forall_forall. intros. apply distanceKey_not_nan.
    + apply SortFacts.sort_unchanged. reflexivity.
  - apply (sort_by_key_fixed _ ParkingSpot.pricePerHour); [|exact Hl].
    intros a b. apply after_price.
  - apply (SortOrder.sort_sort _ (fun a b => ratingKey b <=? ratingKey a) (fun _ => True)).
    + intros a b _ _. rewrite after_rating. apply ltb_negb_leb; apply ratingKey_not_nan.
    + intros a b c H1 H2. eapply leb_trans; eassumption.
    + intros a b _ _. apply leb_total; apply ratingKey_not_nan.
    + apply List.Forall_forall. trivial.
Qed.

(** X1: whatever the sort key, the output of [filteredSpots] holds
    exactly the input listings that pass all four tests (query, price
    ceiling, distance ceiling when the origin is known, spot type), each
    as often as it occurs in the input: sorting neither drops nor
    duplicates a listing. *)
Theorem filteredSpots_holds_the_kept_listings spots q P D types sortBy uloc calc :
  Permutation (filteredSpots spots q P D types sortBy uloc calc)
    (List.filter (keeps q P D types uloc calc) spots).
Proof. rewrite filteredSpots_fused. apply SortFacts.sort_perm. Qed.

(** X2: sorted by price, the output is in ascending order of hourly
    price, for every input: each listing costs at most as much as every
    listing after it (a [NaN] price cannot upset the order, because the
    price ceiling has removed it). *)
Theorem price_sort_is_ascending spots q P D types uloc calc :
  StronglySorted
    (fun a b => (ParkingSpot.pricePerHour a <=? ParkingSpot.pricePerHour b) = true)
    (filteredSpots spots q P D types price uloc calc).
Proof.
  rewrite filteredSpots_fused.
  apply (sort_by_key_sorted _ ParkingSpot.pricePerHour).
  - intros a b. apply after_price.
  - apply kept_prices.
Qed.

(** X3: sorted by rating, the output is in descending order of
    [rating || 0]: the best rated listings come first, and a listing
    without a rating (or rated 0 or [NaN]) counts as rated 0. *)
Theorem rating_sort_is_descending spots q P D types uloc calc :
  StronglySorted (fun a b => (ratingKey b <=? ratingKey a) = true)
    (filteredSpots spots q P D types rating uloc calc).
Proof.
  rewrite filteredSpots_fused.
  apply (SortOrder.sort_sorted _ (fun a b => ratingKey b <=? ratingKey a) (fun _ => True)).
  - intros a b _ _. rewrite after_rating. apply ltb_negb_leb; apply ratingKey_not_nan.
  - intros a b c H1 H2. eapply leb_trans; eassumption.
  - intros a b _ _. apply leb_total; apply ratingKey_not_nan.
  - apply List.Forall_forall. trivial.
Qed.

(** X4: sorted by distance with a known origin, the output is in
    ascending order of [calculateDistance(location) || Infinity]: a
    listing whose distance is [null], [0] or [NaN] is keyed [Infinity]
    and so comes after every listing with a positive distance. *)
Theorem distance_sort_is_ascending spots q P D types u calc :
  StronglySorted (fun a b => (distanceKey calc a <=? distanceKey calc b) = true)
    (filteredSpots spots q P D types distance (Some u) calc).
Proof.
  rewrite filteredSpots_fused.
  apply (sort_by_key_sorted _ (distanceKey calc)).
  - intros a b. apply after_distance.
  - apply List.Forall_forall. intros. apply distanceKey_not_nan.
Qed.

(** X5: the price sort is stable: the kept listings that have the same
    hourly price [c] appear in the output in the order they have in the
    input. *)
Theorem equal_prices_keep_input_order spots q P D types uloc calc c :
  List.filter (fun a => ParkingSpot.pricePerHour a =? c)
    (filteredSpots spots q P D types price uloc calc)
  = List.filter (fun a => ParkingSpot.pricePerHour a =? c)
      (List.filter (keeps q P D types uloc calc) spots).
Proof.
  rewrite filteredSpots_fused.
  apply (sort_by_key_stable _ ParkingSpot.pricePerHour). intros a b. apply after_price.
Qed.

(** X6: [filteredSpots] is idempotent: filtering and sorting its own
    output again, with the same settings, changes nothing. *)
Theorem filteredSpots_idempotent spots q P D types sortBy uloc calc :
  filteredSpots (filteredSpots spots q P D types sortBy uloc calc)
    q P D types sortBy uloc calc
  = filteredSpots spots q P D types sortBy uloc calc.
Proof.
  rewrite !filteredSpots_fused.
  rewrite (filter_all (keeps q P D types uloc calc)).
  - apply sort_compareSpots_fixed, kept_prices.
  - apply List.Forall_forall. intros x Hx. apply SortFacts.In_sort in Hx.
    apply filter_In in Hx. tauto.
Qed.

End SearchOrderFacts.

(** ** The search query, in the search screen and on the map *)

Module QueryFacts.
Import SearchScreen HomeMapScreen Notions FloatOrder.
Local Open Scope float_scope.

Lemma lower_ascii_idem c : JS.lower_ascii (JS.lower_ascii c) = JS.lower_ascii c.
Proof. destruct c as [[] [] [] [] [] [] [] []]; reflexivity. Qed.

Lemma lower_ascii_white_space c :
  JS.is_white_space (JS.lower_ascii c) = JS.is_white_space c.
Proof. destruct c as [[] [] [] [] [] [] [] []]; reflexivity. Qed.

Lemma toLowerCase_idem s : JS.toLowerCase (JS.toLowerCase s) = JS.toLowerCase s.
Proof. induction s as [|c s IH]; simpl; [|rewrite lower_ascii_idem, IH]; reflexivity. Qed.

Lemma trimStart_toLowerCase s :
  JS.trimStart (JS.toLowerCase s) = JS.toLowerCase (JS.trimStart s).
Proof.
  induction s as [|c s IH]; [reflexivity|]. simpl. rewrite lower_ascii_white_space.
  destruct (JS.is_white_space c); [exact IH | reflexivity].
Qed.

Lemma trim_truthy_toLowerCase s : JS.trim_truthy (JS.toLowerCase s) = JS.trim_truthy s.
Proof.
  unfold JS.trim_truthy. rewrite trimStart_toLowerCase.
  destruct (JS.trimStart s); reflexivity.
Qed.

(** X7: the case of the query does not matter, in the search screen and
    in the map search alike: a query and its lower-case form give the
    same result (letters of the ASCII range). *)
Theorem query_case_does_not_matter q :
  (forall spots P D types sortBy uloc calc,
      filteredSpots spots (JS.toLowerCase q) P D types sortBy uloc calc
      = filteredSpots spots q P D types sortBy uloc calc)
  /\ (forall spots uloc calc,
      searchEffect (JS.toLowerCase q) spots uloc calc = searchEffect q spots uloc calc).
Proof.
  split; intros.
  - unfold filteredSpots, byQuery.
    rewrite trim_truthy_toLowerCase, toLowerCase_idem. reflexivity.
  - unfold searchEffect. rewrite trim_truthy_toLowerCase, toLowerCase_idem. reflexivity.
Qed.

(** X8: the map search reports a search exactly when the query has a
    non-blank character; its results are then the listings whose title,
    description, address or city contains the lower-cased query (each as
    often as in the input) and no listing otherwise; whenever the user's
    location is known they are in ascending order of
    [calculateDistance(location) || Infinity]. *)
Theorem searchEffect_lists_matches_nearest_first q spots uloc calc :
  let out := searchEffect q spots uloc calc in
  snd out = JS.trim_truthy q
  /\ Permutation (fst out)
       (if JS.trim_truthy q
        then List.filter (matchesQuery (JS.toLowerCase q)) spots else [])
  /\ (uloc <> None ->
      StronglySorted (fun a b => (distanceKey calc a <=? distanceKey calc b) = true)
        (fst out)).
Proof.
  unfold searchEffect. destruct (JS.trim_truthy q); simpl.
  - split; [reflexivity|]. destruct uloc as [u|]; split; try congruence.
    + apply SortFacts.sort_perm.
    + intros _. apply (SearchOrderFacts.sort_by_key_sorted _ (distanceKey calc)).
      * intros a b. apply sub_pos_iff_lt.
      * apply List.Forall_forall. intros. apply SearchOrderFacts.distanceKey_not_nan.
    + reflexivity.
  - repeat split; [reflexivity | intros; constructor].
Qed.

End QueryFacts.

(** ** The listing feed and the nearby search of the Firestore service *)

Module FeedFacts.
Import Firebase ParkingSpotsService Notions FloatOrder.
Local Open Scope float_scope.

Lemma In_imap_inv {A B} (f : nat -> A -> B) (l : list A) y :
  In y (imap f l) -> exists i x, l !! i = Some x /\ y = f i x.
Proof.
  intros H. apply list_elem_of_In, list_elem_of_lookup in H as [i H].
  rewrite list_lookup_imap in H. destruct (l !! i) as [x|] eqn:E; [|discriminate].
  injection H as <-. eauto.
Qed.

(** X9: the listings that [subscribeToSpots] delivers for a snapshot are
    exactly the conversions of the documents whose [isAvailable] is not
    [false]: an unavailable listing is never delivered, and no other
    document is left out. *)
Theorem feed_holds_the_available_documents clock docs spot :
  In spot (subscribeToSpots_onNext clock docs) <->
  exists i docId data,
    docs !! i = Some (docId, data)
    /\ SpotData.isAvailable data <> Some false
    /\ spot = convertDocToSpot (clock i) docId data.
Proof.
  unfold subscribeToSpots_onNext. rewrite SortFacts.In_sort, filter_In. split.
  - intros [H Ha]. apply In_imap_inv in H as (i & [docId data] & Hi & ->).
    exists i, docId, data. split; [exact Hi|]. split; [|reflexivity].
    simpl in Ha. intros E. rewrite E in Ha. discriminate.
  - intros (i & docId & data & Hi & Ha & ->). split.
    + apply (ListingFacts.In_imap (fun i d => convertDocToSpot (clock i) (fst d) (snd d))
               docs i (docId, data) Hi).
    + simpl. destruct (SpotData.isAvailable data) as [[]|]; try reflexivity. congruence.
Qed.

Lemma after_newestFirst a b :
  JS.comes_after newestFirst a b = (ParkingSpot.createdAt a <? ParkingSpot.createdAt b).
Proof. apply sub_pos_iff_lt. Qed.

(** X10: the delivered listings are ordered newest first: each was
    created no earlier than every listing after it.  The creation times
    are the stored ones, or the conversion time for a document without
    [createdAt]; none of them is an invalid date. *)
Theorem feed_is_newest_first clock docs :
  (forall i, is_nan (clock i) = false) ->
  (forall i docId data t,
      docs !! i = Some (docId, data) -> SpotData.createdAt data = Some t ->
      is_nan t = false) ->
  StronglySorted
    (fun a b => (ParkingSpot.createdAt b <=? ParkingSpot.createdAt a) = true)
    (subscribeToSpots_onNext clock docs).
Proof.
  intros Hclock Hdocs. unfold subscribeToSpots_onNext.
  apply (SortOrder.sort_sorted _
           (fun a b => ParkingSpot.createdAt b <=? ParkingSpot.createdAt a)
           (fun a => is_nan (ParkingSpot.createdAt a) = false)).
  - intros a b Ha Hb. rewrite after_newestFirst. apply ltb_negb_leb; assumption.
  - intros a b c H1 H2. eapply leb_trans; eassumption.
  - intros a b Ha Hb. apply leb_total; assumption.
  - apply List.Forall_forall. intros x Hx. apply filter_In in Hx as [Hx _].
    apply In_imap_inv in Hx as (i & [docId data] & Hi & ->). simpl.
    destruct (SpotData.createdAt data) as [t|] eqn:E; simpl; [|apply Hclock].
    eapply Hdocs; eassumption.
Qed.

Lemma feed_is_newest_first_witness :
  StronglySorted
    (fun a b => (ParkingSpot.createdAt b <=? ParkingSpot.createdAt a) = true)
    (subscribeToSpots_onNext (fun _ => 1700000009000)
       [("s1", Sample.spotDataCreated (Some 1700000000000));
        ("s2", Sample.spotDataCreated None);
        ("s3", Sample.spotDataCreated (Some 1700000005000))]).
Proof.
  apply feed_is_newest_first.
  - intros i. reflexivity.
  - intros i docId data t Hi Ht.
    destruct i as [|[|[|i]]]; simpl in Hi; try discriminate;
      injection Hi as <- <-; simpl in Ht; try discriminate;
      injection Ht as <-; reflexivity.
Defined.

(** X11: in [searchParkingSpotsNearby] a falsy [maxPrice] ([0] or [NaN])
    is no price ceiling at all: the result is the one obtained without
    [maxPrice], so a ceiling of 0 returns the paid listings too. *)
Theorem falsy_maxPrice_is_no_ceiling M center radiusKm p allSpots :
  JS.truthy p = false ->
  searchParkingSpotsNearby_filter M center radiusKm (Some p) allSpots
  = searchParkingSpotsNearby_filter M center radiusKm None allSpots.
Proof.
  intros Hp. unfold searchParkingSpotsNearby_filter. rewrite Hp. reflexivity.
Qed.

Lemma falsy_maxPrice_is_no_ceiling_witness :
  let center := Sample.location 43.65 (-79.38) in
  let allSpots := [Sample.spot "s1" 43.65 (-79.38) 5] in
  searchParkingSpotsNearby_filter Math.smallAngle center 10 (Some 0) allSpots = allSpots.
Proof.
  intros center allSpots.
  exact (eq_trans (falsy_maxPrice_is_no_ceiling Math.smallAngle center 10 0 allSpots eq_refl)
           eq_refl).
Defined.

(** X12: a listing located exactly at the (finite) search center is
    within every radius that is not negative: without a price ceiling,
    [searchParkingSpotsNearby] returns it whenever it is among the
    fetched listings.  [Math] is any implementation with the properties
    of [Math.Conforms]. *)
Theorem listing_at_center_is_within_any_radius M center radiusKm allSpots spot :
  Math.Conforms M ->
  is_finite (Location.latitude center) = true ->
  is_finite (Location.longitude center) = true ->
  (0 <=? radiusKm) = true ->
  Location.latitude (ParkingSpot.location spot) = Location.latitude center ->
  Location.longitude (ParkingSpot.location spot) = Location.longitude center ->
  In spot allSpots ->
  In spot (searchParkingSpotsNearby_filter M center radiusKm None allSpots).
Proof.
  intros HM Flat Flon Hr Elat Elon Hin. unfold searchParkingSpotsNearby_filter.
  apply filter_In. split; [exact Hin|].
  rewrite Elat, Elon, (GeoFacts.calculateDistance_same M HM) by assumption.
  rewrite Hr. reflexivity.
Qed.

Lemma listing_at_center_is_within_any_radius_witness :
  In (Sample.spot "s1" 43.65 (-79.38) 5)
    (searchParkingSpotsNearby_filter Math.smallAngle (Sample.location 43.65 (-79.38)) 0 None
       [Sample.spot "s1" 43.65 (-79.38) 5]).
Proof.
  apply listing_at_center_is_within_any_radius; try reflexivity.
  - exact GeoFacts.smallAngle_conforms.
  - left. reflexivity.
Defined.

End FeedFacts.

(** ** ListingStore: failed updates and the local lookup *)

Module UpdateFacts.
Import Firebase ParkingSpotsService ParkingSpotsContext Notions.

(** X13: [updateParkingSpot] is no upsert.  It rejects exactly when the
    update object, once [id] and [createdAt] are removed, has an
    [undefined] field (nothing is then sent), when the request fails, or
    when the listing has no document; every rejection is the same error,
    "Failed to update parking spot", whatever the cause, and leaves the
    collection as it was; and it resolves only when the document
    exists. *)
Theorem updateParkingSpot_fails_without_side_effect spotId data b :
  let payload := <["updatedAt" := VServerTimestamp]> (delete "createdAt" (delete "id" data)) in
  let out := updateParkingSpot spotId data b in
  (fst out = Async.Rejected (JS.new_Error "Failed to update parking spot")
   <-> has_undefined payload = true \/ next_fault b <> None
       \/ parkingSpots b !! spotId = None)
  /\ (forall e, fst out = Async.Rejected e ->
        e = JS.new_Error "Failed to update parking spot"
        /\ parkingSpots (snd out) = parkingSpots b)
  /\ (has_undefined payload = true -> requests (snd out) = requests b)
  /\ (fst out = Async.Resolved tt ->
        is_Some (parkingSpots b !! spotId)
        /\ is_Some (parkingSpots (snd out) !! spotId)).
Proof.
  intros payload out.
  destruct (ListingFacts.updateParkingSpot_cases spotId data b)
    as [(doc & Hu & Hf & Hd & Hr & Hs & Hq)|(Hc & Hr & Hs & _ & Hq)];
    fold out in Hr, Hs, Hq.
  - fold payload in Hu. split; [|split; [|split]].
    + split; [rewrite Hr; discriminate | intros [H|[H|H]]; congruence].
    + intros e He. rewrite Hr in He. discriminate.
    + congruence.
    + intros _. rewrite Hs, lookup_insert_eq, Hd. eauto.
  - fold payload in Hc, Hq. split; [|split; [|split]].
    + tauto.
    + intros e He. rewrite Hr in He. injection He as <-. auto.
    + intros Hu. rewrite Hq, Hu. apply app_nil_r.
    + rewrite Hr. discriminate.
Qed.

Lemma updateParkingSpot_fails_without_side_effect_witness :
  let data : DocumentData := {[ "pricePerDay" := VUndefined; "rating" := VNumber 4%float ]} in
  let out := updateParkingSpot "s1" data (Sample.backend []) in
  is_Some (parkingSpots (Sample.backend []) !! "s1")
  /\ fst out = Async.Rejected (JS.new_Error "Failed to update parking spot")
  /\ requests (snd out) = []
  /\ parkingSpots (snd out) = parkingSpots (Sample.backend []).
Proof.
  intros data out.
  destruct (updateParkingSpot_fails_without_side_effect "s1" data (Sample.backend []))
    as (Hiff & Hrej & Hsent & _).
  assert (Hr : fst out = Async.Rejected (JS.new_Error "Failed to update parking spot")).
  { apply Hiff. left. reflexivity. }
  split; [eexists; reflexivity|]. split; [exact Hr|].
  split; [exact (Hsent eq_refl) | exact (proj2 (Hrej _ Hr))].
Defined.

Lemma find_filter_ne (l : list ParkingSpot.t) spotId id :
  id <> spotId ->
  List.find (fun spot => String.eqb (ParkingSpot.id spot) id)
    (List.filter (fun spot => negb (String.eqb (ParkingSpot.id spot) spotId)) l)
  = List.find (fun spot => String.eqb (ParkingSpot.id spot) id) l.
Proof.
  intros Hne. induction l as [|x l IH]; [reflexivity|]. simpl.
  destruct (String.eqb_spec (ParkingSpot.id x) spotId) as [E|E]; simpl.
  - destruct (String.eqb_spec (ParkingSpot.id x) id); [congruence | exact IH].
  - destruct (String.eqb (ParkingSpot.id x) id); [reflexivity | exact IH].
Qed.

Lemma find_filter_eq (l : list ParkingSpot.t) spotId :
  List.find (fun spot => String.eqb (ParkingSpot.id spot) spotId)
    (List.filter (fun spot => negb (String.eqb (ParkingSpot.id spot) spotId)) l)
  = None.
Proof.
  induction l as [|x l IH]; [reflexivity|]. simpl.
  destruct (String.eqb (ParkingSpot.id x) spotId) eqn:E; simpl; [exact IH|].
  rewrite E. exact IH.
Qed.

(** X14: after a successful [deleteSpot], [getSpotById] no longer finds
    the deleted listing, even if the local view held it more than once,
    and finds every other id as before. *)
Theorem deleted_listing_is_no_longer_found spotId b s :
  let out := deleteSpot spotId (b, s) in
  fst out = Async.Resolved tt ->
  getSpotById (snd (snd out)) spotId = None
  /\ (forall id, id <> spotId ->
        getSpotById (snd (snd out)) id = getSpotById s id).
Proof.
  intros out. unfold out, deleteSpot, Async.try_catch, Async.bind, Async.on_fst,
    ParkingSpotsService.deleteParkingSpot, Async.try_catch, deleteDoc, Async.bind, request.
  cbn [fst snd].
  destruct (faults b) as [|[e|] fs]; simpl; try discriminate; intros _;
    unfold getSpotById; simpl;
    (split; [apply find_filter_eq | intros; apply find_filter_ne; assumption]).
Qed.

Lemma deleted_listing_is_no_longer_found_witness :
  let out := deleteSpot "s1" (Sample.backend [], Sample.spotsState) in
  getSpotById Sample.spotsState "s1"
  = Some (Sample.spot "s1" 43.65%float (-79.38)%float 5%float)
  /\ getSpotById (snd (snd out)) "s1" = None
  /\ getSpotById (snd (snd out)) "s2"
     = Some (Sample.spot "s2" 43.7%float (-79.4)%float 7%float).
Proof.
  intros out.
  destruct (deleted_listing_is_no_longer_found "s1" (Sample.backend []) Sample.spotsState
              eq_refl) as [Hgone Hkept].
  split; [reflexivity|]. split; [exact Hgone|].
  fold out in Hkept. rewrite (Hkept "s2") by discriminate. reflexivity.
Defined.

Lemma assign_id spot data now :
  data !! "id" = None -> ParkingSpot.id (assign spot data now) = ParkingSpot.id spot.
Proof. intros H. unfold assign. simpl. rewrite H. reflexivity. Qed.

Lemma find_map_assign (l : list ParkingSpot.t) spotId data now id :
  data !! "id" = None ->
  List.find (fun spot => String.eqb (ParkingSpot.id spot) id)
    (List.map (fun spot => if String.eqb (ParkingSpot.id spot) spotId
                           then assign spot data now else spot) l)
  = (fun spot => if String.eqb id spotId then assign spot data now else spot)
      <$> List.find (fun spot => String.eqb (ParkingSpot.id spot) id) l.
Proof.
  intros Hid. induction l as [|x l IH]; [reflexivity|]. simpl.
  destruct (String.eqb_spec (ParkingSpot.id x) spotId) as [E|E].
  - rewrite assign_id by assumption.
    destruct (String.eqb_spec (ParkingSpot.id x) id) as [E'|E']; [|exact IH].
    simpl. subst id. rewrite E, String.eqb_refl. reflexivity.
  - destruct (String.eqb_spec (ParkingSpot.id x) id) as [E'|E']; [|exact IH].
    simpl. subst id. destruct (String.eqb_spec (ParkingSpot.id x) spotId); [congruence|].
    reflexivity.
Qed.

(** X15: after a successful [updateSpot] whose update object carries no
    [id], [getSpotById] finds the updated listing with the update merged
    in, and finds every other id exactly as before; both local views
    keep their length. *)
Theorem updated_listing_is_found_merged nowSpots nowUserSpots spotId data b s :
  let out := updateSpot nowSpots nowUserSpots spotId data (b, s) in
  data !! "id" = None ->
  fst out = Async.Resolved tt ->
  (forall id,
      getSpotById (snd (snd out)) id
      = (fun spot => if String.eqb id spotId then assign spot data nowSpots else spot)
          <$> getSpotById s id)
  /\ length (spots (snd (snd out))) = length (spots s)
  /\ length (userSpots (snd (snd out))) = length (userSpots s).
Proof.
  intros out Hid. unfold out, updateSpot, Async.try_catch, Async.bind, Async.on_fst.
  simpl fst.
  destruct (ListingFacts.updateParkingSpot_cases spotId data b)
    as [(doc & _ & Hf & Hd & Hr & Hs & _)|(Hc & Hr & Hs & _)];
    destruct (updateParkingSpot spotId data b) as [r b']; simpl in Hr; subst r; simpl;
      try discriminate.
  intros _. unfold getSpotById. simpl. rewrite !length_map.
  split; [|auto]. intros id. apply find_map_assign. exact Hid.
Qed.

Lemma updated_listing_is_found_merged_witness :
  let data : DocumentData := {[ "pricePerHour" := VNumber 6%float ]} in
  let out := updateSpot 1700000006000%float 1700000006001%float "s1" data
               (Sample.backend [], Sample.spotsState) in
  (ParkingSpot.pricePerHour <$> getSpotById (snd (snd out)) "s1") = Some 6%float
  /\ getSpotById (snd (snd out)) "s2" = getSpotById Sample.spotsState "s2".
Proof.
  intros data out.
  destruct (updated_listing_is_found_merged 1700000006000%float 1700000006001%float "s1"
              data (Sample.backend []) Sample.spotsState eq_refl eq_refl) as [H _].
  fold out in H. rewrite !H. split; reflexivity.
Defined.

(** X16: when [updateSpot] rejects, the error is "Failed to update
    parking spot"; the two local views and the collection are as before,
    and the context's [error] holds that message. *)
Theorem failed_update_leaves_the_views spotId nowSpots nowUserSpots data b s e :
  let out := updateSpot nowSpots nowUserSpots spotId data (b, s) in
  fst out = Async.Rejected e ->
  e = JS.new_Error "Failed to update parking spot"
  /\ spots (snd (snd out)) = spots s
  /\ userSpots (snd (snd out)) = userSpots s
  /\ error (snd (snd out)) = Some "Failed to update parking spot"
  /\ parkingSpots (fst (snd out)) = parkingSpots b.
Proof.
  intros out. unfold out, updateSpot, Async.try_catch, Async.bind, Async.on_fst.
  simpl fst.
  destruct (ListingFacts.updateParkingSpot_cases spotId data b)
    as [(doc & _ & Hf & Hd & Hr & Hs & _)|(Hc & Hr & Hs & _)];
    destruct (updateParkingSpot spotId data b) as [r b']; simpl in Hr, Hs; subst r; simpl;
      try discriminate.
  intros [= <-]. auto.
Qed.

Lemma failed_update_leaves_the_views_witness :
  let data : DocumentData := {[ "pricePerHour" := VNumber 6%float ]} in
  let out := updateSpot 1700000006000%float 1700000006001%float "s1" data
               (Sample.backend [Some Sample.networkError], Sample.spotsState) in
  spots (snd (snd out)) = spots Sample.spotsState
  /\ error (snd (snd out)) = Some "Failed to update parking spot".
Proof.
  intros data out.
  destruct (failed_update_leaves_the_views "s1" 1700000006000%float 1700000006001%float
              data (Sample.backend [Some Sample.networkError]) Sample.spotsState
              (JS.new_Error "Failed to update parking spot") eq_refl)
    as (_ & Hspots & _ & Herr & _).
  split; [exact Hspots | exact Herr].
Defined.

End UpdateFacts.

(** ** Image cleanup in the storage service *)

Module StorageFacts.
Import Firebase StorageService Notions.

Lemma all_snd_cons {S A} (p : Async.t S A) ps s :
  snd (Async.all (p :: ps) s) = snd (Async.all ps (snd (p s))).
Proof.
  simpl. destruct (p s) as [r s1]. simpl. destruct (Async.all ps s1) as [rs s2].
  destruct r, rs; reflexivity.
Qed.

Lemma request_storage r b : storage (snd (request r b)) = storage b.
Proof. unfold request. destruct (faults b) as [|[e|] fs]; reflexivity. Qed.

Lemma request_parkingSpots r b : parkingSpots (snd (request r b)) = parkingSpots b.
Proof. unfold request. destruct (faults b) as [|[e|] fs]; reflexivity. Qed.

Lemma request_quiet r b :
  quiet b -> fst (request r b) = Async.Resolved tt /\ quiet (snd (request r b)).
Proof.
  unfold quiet, request. destruct (faults b) as [|[e|] fs]; simpl; intros H.
  - auto.
  - apply Forall_cons in H as [H _]. discriminate.
  - apply Forall_cons in H as [_ H]. auto.
Qed.

Lemma filter_absent path l :
  List.existsb (String.eqb path) l = false ->
  List.filter (fun p => negb (String.eqb p path)) l = l.
Proof.
  induction l as [|x l IH]; [reflexivity|]. simpl. rewrite orb_false_iff.
  intros [Hx Hl]. rewrite String.eqb_sym, Hx. simpl. rewrite IH by assumption. reflexivity.
Qed.

(** What [deleteObject] does to the store. *)
Lemma deleteObject_cases path b :
  (fst (deleteObject path b) = Async.Resolved tt
   /\ storage (snd (deleteObject path b))
      = List.filter (fun p => negb (String.eqb p path)) (storage b))
  \/ (exists e, fst (deleteObject path b) = Async.Rejected e
       /\ storage (snd (deleteObject path b)) = storage b
       /\ (next_fault b = None -> List.existsb (String.eqb path) (storage b) = false)).
Proof.
  unfold deleteObject, Async.bind, Async.get, request, next_fault.
  destruct (faults b) as [|[e|] fs]; simpl;
    try (destruct (existsb (String.eqb path) (storage b)) eqn:E; simpl);
    eauto 6; right; eexists; (split; [reflexivity|]); split; auto; discriminate.
Qed.

Lemma deleteObject_parkingSpots path b :
  parkingSpots (snd (deleteObject path b)) = parkingSpots b.
Proof.
  unfold deleteObject, Async.bind, Async.get, request.
  destruct (faults b) as [|[e|] fs]; simpl; auto;
    destruct (existsb _ _); simpl; auto.
Qed.

Lemma deleteObject_quiet path b :
  quiet b ->
  storage (snd (deleteObject path b))
  = List.filter (fun p => negb (String.eqb p path)) (storage b)
  /\ quiet (snd (deleteObject path b)).
Proof.
  intros Hq. unfold deleteObject, Async.bind, Async.get.
  destruct (request_quiet (DeleteObject path) b Hq) as [Hr Hq'].
  pose proof (request_storage (DeleteObject path) b) as Hs.
  destruct (request (DeleteObject path) b) as [r b']. simpl in *. subst r.
  destruct (existsb _ _) eqn:E; simpl.
  - rewrite Hs. auto.
  - rewrite Hs in *. rewrite filter_absent by assumption. auto.
Qed.

Lemma outside_filter folder path l :
  in_folder folder path = true ->
  outside folder (List.filter (fun p => negb (String.eqb p path)) l) = outside folder l.
Proof.
  intros Hin. unfold outside. rewrite SearchOrderFacts.filter_filter_andb.
  apply filter_ext. intros q.
  destruct (String.eqb_spec q path) as [->|]; simpl; [rewrite Hin|]; reflexivity.
Qed.

Lemma all_deleteObject_outside folder items b :
  Forall (fun p => in_folder folder p = true) items ->
  outside folder (storage (snd (Async.all (List.map deleteObject items) b)))
  = outside folder (storage b)
  /\ parkingSpots (snd (Async.all (List.map deleteObject items) b)) = parkingSpots b.
Proof.
  intros H. revert b. induction H as [|p items Hp _ IH]; intros b; [auto|].
  cbn [List.map]. rewrite all_snd_cons.
  destruct (IH (snd (deleteObject p b))) as [-> ->].
  rewrite deleteObject_parkingSpots. split; [|reflexivity].
  destruct (deleteObject_cases p b) as [[_ ->]|(e & _ & -> & _)]; [|reflexivity].
  apply outside_filter. exact Hp.
Qed.

Lemma all_deleteObject_quiet items b :
  quiet b ->
  storage (snd (Async.all (List.map deleteObject items) b))
  = List.filter (fun q => negb (List.existsb (String.eqb q) items)) (storage b).
Proof.
  revert b. induction items as [|p items IH]; intros b Hq.
  - simpl. symmetry. apply SearchOrderFacts.filter_true.
  - cbn [List.map]. rewrite all_snd_cons.
    destruct (deleteObject_quiet p b Hq) as [Hs Hq'].
    rewrite IH, Hs by assumption. rewrite SearchOrderFacts.filter_filter_andb.
    apply filter_ext. intros q. simpl. rewrite negb_orb. reflexivity.
Qed.

Lemma existsb_filtered (f : string -> bool) l q :
  In q l -> List.existsb (String.eqb q) (List.filter f l) = f q.
Proof.
  intros Hin. destruct (f q) eqn:E.
  - apply existsb_exists. exists q. rewrite filter_In, String.eqb_refl. auto.
  - destruct (existsb _ _) eqn:E'; [|reflexivity].
    apply existsb_exists in E' as (x & Hx & Hq). apply String.eqb_eq in Hq. subst x.
    apply filter_In in Hx as [_ Hx]. congruence.
Qed.

Lemma after_prefix_prefix p s r : after_prefix p s = Some r -> String.prefix p s = true.
Proof.
  revert s. induction p as [|a p IH]; intros [|c s]; simpl; try discriminate; auto.
  destruct (Ascii.eqb_spec a c) as [->|]; [|discriminate].
  destruct (ascii_dec c c); [apply IH | congruence].
Qed.

(** An object directly in a folder is under that folder. *)
Lemma direct_child_in_folder folder p :
  direct_child folder p = true -> in_folder folder p = true.
Proof.
  unfold direct_child, in_folder.
  destruct (after_prefix _ p) as [name|] eqn:E; [|discriminate].
  intros _. eapply after_prefix_prefix. exact E.
Qed.

(** Once the listing of the folder has succeeded, the store is what the
    deletions of the listed objects leave. *)
Lemma deleteParkingSpotImages_run spotId folder b :
  folder = ("parkingSpots/" ++ spotId)%string ->
  fst (request (ListAll folder) b) = Async.Resolved tt ->
  let b2 := snd (Async.all (List.map deleteObject
                              (List.filter (direct_child folder) (storage b)))
                   (snd (request (ListAll folder) b))) in
  storage (snd (deleteParkingSpotImages spotId b)) = storage b2
  /\ parkingSpots (snd (deleteParkingSpotImages spotId b)) = parkingSpots b2.
Proof.
  intros -> Hr.
  unfold deleteParkingSpotImages, Async.try_catch, Async.bind, listAll, Async.bind, Async.get.
  pose proof (request_storage (ListAll ("parkingSpots/" ++ spotId)) b) as Hs.
  destruct (request (ListAll ("parkingSpots/" ++ spotId)) b) as [r b']. simpl in Hr, Hs.
  subst r. cbn [fst snd]. unfold Async.ret. cbn [fst snd]. rewrite Hs.
  destruct (Async.all _ b') as [[l|e] b2]; simpl; auto.
Qed.

(** When the listing fails, nothing is deleted. *)
Lemma deleteParkingSpotImages_unlisted spotId b e :
  fst (request (ListAll ("parkingSpots/" ++ spotId)) b) = Async.Rejected e ->
  storage (snd (deleteParkingSpotImages spotId b)) = storage b
  /\ parkingSpots (snd (deleteParkingSpotImages spotId b)) = parkingSpots b.
Proof.
  intros Hr.
  unfold deleteParkingSpotImages, Async.try_catch, Async.bind, listAll, Async.bind.
  pose proof (request_storage (ListAll ("parkingSpots/" ++ spotId)) b) as Hs.
  pose proof (request_parkingSpots (ListAll ("parkingSpots/" ++ spotId)) b) as Hp.
  destruct (request (ListAll ("parkingSpots/" ++ spotId)) b) as [r b']. simpl in Hr, Hs, Hp.
  subst r. simpl. auto.
Qed.

(** X17: whatever fails on the way, [deleteParkingSpotImages] removes
    stored objects of the listing's own folder only: the objects outside
    [parkingSpots/<spotId>/] are the same before and after, and the
    listing documents are not touched. *)
Theorem image_cleanup_stays_in_its_folder spotId b :
  let out := deleteParkingSpotImages spotId b in
  outside ("parkingSpots/" ++ spotId) (storage (snd out))
  = outside ("parkingSpots/" ++ spotId) (storage b)
  /\ parkingSpots (snd out) = parkingSpots b.
Proof.
  intros out. unfold out. remember ("parkingSpots/" ++ spotId)%string as folder eqn:Ef.
  destruct (fst (request (ListAll folder) b)) as [[]|e] eqn:Hr.
  - destruct (deleteParkingSpotImages_run spotId folder b Ef Hr) as [-> ->].
    destruct (all_deleteObject_outside folder (List.filter (direct_child folder) (storage b))
                (snd (request (ListAll folder) b))) as [-> ->].
    + apply List.Forall_forall. intros p Hp. apply filter_In in Hp as [_ Hp].
      apply direct_child_in_folder. exact Hp.
    + rewrite request_storage, request_parkingSpots. auto.
  - subst folder. destruct (deleteParkingSpotImages_unlisted spotId b e Hr) as [-> ->]. auto.
Qed.

(** X18: when no request fails, [deleteParkingSpotImages] removes
    exactly the objects stored directly in the listing's folder (also
    when one is stored twice, so that its second deletion is refused):
    objects of sub-folders stay, like those outside the folder.  So it
    empties the folder when the folder has no sub-folder: what is stored
    afterwards is then exactly what was stored outside the folder. *)
Theorem image_cleanup_empties_the_folder spotId b :
  quiet b ->
  storage (snd (deleteParkingSpotImages spotId b))
  = List.filter (fun p => negb (direct_child ("parkingSpots/" ++ spotId) p)) (storage b)
  /\ (flat ("parkingSpots/" ++ spotId) (storage b) ->
      storage (snd (deleteParkingSpotImages spotId b))
      = outside ("parkingSpots/" ++ spotId) (storage b)).
Proof.
  intros Hq. remember ("parkingSpots/" ++ spotId)%string as folder eqn:Ef.
  destruct (request_quiet (ListAll folder) b Hq) as [Hr Hq'].
  destruct (deleteParkingSpotImages_run spotId folder b Ef Hr) as [-> _].
  rewrite all_deleteObject_quiet by assumption.
  rewrite request_storage.
  assert (E : List.filter
                (fun q => negb (List.existsb (String.eqb q)
                                  (List.filter (direct_child folder) (storage b))))
                (storage b)
              = List.filter (fun p => negb (direct_child folder p)) (storage b)).
  { apply filter_ext_in. intros q Hin.
    rewrite existsb_filtered by assumption. reflexivity. }
  rewrite E. split; [reflexivity|].
  intros Hflat. unfold outside. apply filter_ext_in. intros q Hin.
  unfold flat in Hflat. rewrite List.Forall_forall in Hflat. specialize (Hflat q Hin).
  destruct (in_folder folder q) eqn:Ein.
  - rewrite Hflat by reflexivity. reflexivity.
  - destruct (direct_child folder q) eqn:Ed; [|reflexivity].
    apply direct_child_in_folder in Ed. congruence.
Qed.

Lemma image_cleanup_empties_the_folder_witness :
  let b := set_storage (fun l => l ++ ["parkingSpots/s1/thumbs/a.jpg";
                                       "parkingSpots/s2/1700000000001_0.jpg"])
             (Sample.backend []) in
  storage b = ["parkingSpots/s1/1700000000000_0.jpg"; "parkingSpots/s1/thumbs/a.jpg";
               "parkingSpots/s2/1700000000001_0.jpg"]
  /\ storage (snd (deleteParkingSpotImages "s1" b))
     = ["parkingSpots/s1/thumbs/a.jpg"; "parkingSpots/s2/1700000000001_0.jpg"]
  /\ storage (snd (deleteParkingSpotImages "s1" (Sample.backend []))) = [].
Proof.
  intros b. split; [reflexivity|]. split.
  - destruct (image_cleanup_empties_the_folder "s1" b (List.Forall_nil _)) as [H _].
    exact (eq_trans H eq_refl).
  - destruct (image_cleanup_empties_the_folder "s1" (Sample.backend []) (List.Forall_nil _))
      as [_ H].
    refine (eq_trans (H _) eq_refl).
    repeat constructor.
Defined.

Lemma deleteImage_run url b :
  fst (deleteImage url b) = Async.Resolved tt
  /\ storage (snd (deleteImage url b)) = storage (snd (deleteObject url b)).
Proof.
  unfold deleteImage, Async.try_catch.
  destruct (deleteObject url b) as [[[]|e] b']; simpl; auto.
Qed.

(** X19: [deleteImage] never rejects, whether the deletion fails or the
    image is already gone; it leaves every other stored object in place,
    and when the request meets no fault the image is not stored
    afterwards. *)
Theorem deleteImage_never_rejects url b :
  let out := deleteImage url b in
  fst out = Async.Resolved tt
  /\ (forall p, p <> url -> In p (storage (snd out)) <-> In p (storage b))
  /\ (next_fault b = None -> ~ In url (storage (snd out))).
Proof.
  intros out. destruct (deleteImage_run url b) as [Hr Hs]. fold out in Hr, Hs.
  split; [exact Hr|]. rewrite Hs.
  destruct (deleteObject_cases url b) as [[_ ->]|(e & _ & -> & Habsent)].
  - split.
    + intros p Hp. rewrite filter_In.
      destruct (String.eqb_spec p url); [congruence|]. simpl. tauto.
    + intros _. rewrite filter_In, String.eqb_refl. simpl. intros [_ H]. discriminate.
  - split; [tauto|]. intros Hq Hin. specialize (Habsent Hq).
    assert (List.existsb (String.eqb url) (storage b) = true) as E; [|congruence].
    apply existsb_exists. exists url. rewrite String.eqb_refl. auto.
Qed.

End StorageFacts.

(** ** LocationSession: how a location request ends *)

Module LocationRequestFacts.
Import ExpoLocation LocationContext Notions LocationFacts.

(** The geocoding block never fails and never touches the coordinates or
    the session state. *)
Lemma withAddress_spec dev location s :
  exists l,
    fst (withAddress dev location s) = Async.Resolved l
    /\ Location.latitude l = Location.latitude location
    /\ Location.longitude l = Location.longitude location
    /\ userLocation (snd (withAddress dev location s)) = userLocation s
    /\ error (snd (withAddress dev location s)) = error s
    /\ alerts (snd (withAddress dev location s)) = alerts s.
Proof.
  unfold withAddress, Async.try_catch, Async.bind, await.
  destruct (reverseGeocodeAsync dev _ _) as [[|a l]|e]; simpl; eauto 10.
Qed.

Lemma readPosition_alerts dev s : alerts (snd (readPosition dev s)) = alerts s.
Proof.
  unfold readPosition, getPositionWithTimeout, Async.try_catch, Async.bind, await.
  destruct (getCurrentPositionAsync dev) as [[p|e]|]; simpl; auto.
Qed.

(** The two ways [locate] ends. *)
Lemma locate_cases dev s :
  (exists position l,
      fst (readPosition dev s) = Async.Resolved (Some position)
      /\ fst (locate dev s) = Async.Resolved (Some l)
      /\ Location.latitude l = coords_latitude position
      /\ Location.longitude l = coords_longitude position
      /\ userLocation (snd (locate dev s)) = Some l
      /\ isLoading (snd (locate dev s)) = false
      /\ error (snd (locate dev s)) = error s
      /\ alerts (snd (locate dev s)) = alerts s)
  \/ (exists e,
      fst (locate dev s) = Async.Rejected e
      /\ userLocation (snd (locate dev s)) = userLocation s
      /\ alerts (snd (locate dev s)) = alerts s
      /\ (fst (readPosition dev s) = Async.Resolved None
          /\ e = JS.new_Error "Unable to retrieve location."
          \/ fst (readPosition dev s) = Async.Rejected e)).
Proof.
  destruct (readPosition_state dev s) as (Hu & _ & He).
  pose proof (readPosition_alerts dev s) as Ha.
  unfold locate, Async.bind.
  destruct (readPosition dev s) as [[[position|]|e] s1]; simpl in Hu, He, Ha.
  - left.
    match goal with |- context [withAddress dev ?loc s1] =>
      destruct (withAddress_spec dev loc s1) as (l & Hr & Hlat & Hlon & Hu' & He' & Ha');
      destruct (withAddress dev loc s1) as [r s2] end.
    simpl in Hr, Hu', He', Ha'. subst r. exists position, l. simpl.
    repeat split; try assumption; try reflexivity; congruence.
  - right. eexists. simpl. eauto 10.
  - right. exists e. simpl. eauto 10.
Qed.

(** [requestPermission] never rejects: a failing request counts as a
    refusal. *)
Lemma requestPermission_spec dev s :
  exists g s1,
    requestPermission dev s = (Async.Resolved g, s1)
    /\ userLocation s1 = userLocation s /\ error s1 = error s /\ alerts s1 = alerts s
    /\ g = match requestForegroundPermissionsAsync dev with
           | Async.Resolved p => is_granted (status p)
           | Async.Rejected _ => false
           end.
Proof.
  unfold requestPermission, Async.try_catch, Async.bind, await.
  destruct (requestForegroundPermissionsAsync dev); simpl; eauto 10.
Qed.

Ltac run_locate dev :=
  match goal with
  | |- context [locate dev ?s1] =>
      let r := fresh "r" in
      let s2 := fresh "s" in
      destruct (locate_cases dev s1)
        as [(pos0 & loc0 & Hpos & Hr & Hlat & Hlon & Hu' & Hl' & He' & Ha')
           |(err0 & Hr & Hu' & Ha' & Hwhy)];
      destruct (locate dev s1) as [r s2];
      cbn [fst snd] in Hr, Hu', Ha'; try (cbn [fst snd] in Hl', He'); subst r;
      cbn -[errorMessage]
  end.

(** X20: [getCurrentLocation] never rejects and always ends with
    [isLoading] reset.  Either it returns a location, which is then the
    stored user location, with no error set; or it returns [null], the
    stored user location is the one from before the call, and an error
    message is set. *)
Theorem getCurrentLocation_always_settles dev s :
  let out := getCurrentLocation dev s in
  isLoading (snd out) = false
  /\ ((exists l, fst out = Async.Resolved (Some l)
                 /\ userLocation (snd out) = Some l
                 /\ error (snd out) = None)
      \/ (fst out = Async.Resolved None
          /\ userLocation (snd out) = userLocation s
          /\ exists msg, error (snd out) = Some msg)).
Proof.
  intros out.
  unfold out, getCurrentLocation, Async.bind, Async.try_catch, Async.modify, await.
  destruct (getForegroundPermissionsAsync dev) as [p|e0].
  - destruct (is_granted (status p)).
    + run_locate dev.
      * split; [assumption|]. left. exists loc0. auto.
      * split; [reflexivity|]. right. eauto.
    + destruct (canAskAgain p).
      * match goal with |- context [requestPermission dev ?s1] =>
          destruct (requestPermission_spec dev s1) as (g & s1' & -> & Hu1 & He1 & _)
        end.
        destruct g.
        -- run_locate dev.
           ++ split; [assumption|]. left. exists loc0. rewrite He', He1. auto.
           ++ split; [reflexivity|]. right. rewrite Hu', Hu1. eauto.
        -- cbn. rewrite Hu1. split; [reflexivity|]. right. eauto.
      * cbn. split; [reflexivity|]. right. eauto.
  - cbn -[errorMessage]. split; [reflexivity|]. right. eauto.
Qed.

(** X21: when the permission check answers and the permission is not
    obtained, the request ends at once with [null] and one alert, the
    stored location unchanged: "Location permission not granted" (alert
    "Permission Required") if the app could still ask, "Location
    permission denied in settings" (alert "Permission Denied") if it
    could not. *)
Theorem refused_permission_ends_the_request dev s p :
  getForegroundPermissionsAsync dev = Async.Resolved p ->
  permission_obtained dev = false ->
  let out := getCurrentLocation dev s in
  fst out = Async.Resolved None
  /\ userLocation (snd out) = userLocation s
  /\ error (snd out)
     = Some (if canAskAgain p then "Location permission not granted"
             else "Location permission denied in settings")
  /\ alerts (snd out)
     = alerts s ++ [if canAskAgain p then "Permission Required" else "Permission Denied"].
Proof.
  intros Hp Hperm out. unfold permission_obtained in Hperm. rewrite Hp in Hperm.
  unfold out, getCurrentLocation, Async.bind, Async.try_catch, Async.modify, await.
  rewrite Hp. apply orb_false_iff in Hperm as [-> Hask].
  destruct (canAskAgain p).
  - match goal with |- context [requestPermission dev ?s1] =>
      destruct (requestPermission_spec dev s1) as (g & s1' & -> & Hu1 & He1 & Ha1 & Hg)
    end.
    simpl in Hask. rewrite Hask in Hg. subst g. cbn. rewrite Hu1, Ha1. auto.
  - cbn. auto.
Qed.

Lemma refused_permission_ends_the_request_witness :
  let out := getCurrentLocation Sample.deniedDevice Sample.locationState in
  fst out = Async.Resolved None
  /\ error (snd out) = Some "Location permission denied in settings"
  /\ alerts (snd out) = ["Permission Denied"].
Proof.
  intros out.
  destruct (refused_permission_ends_the_request Sample.deniedDevice Sample.locationState
              {| status := denied; canAskAgain := false |} eq_refl eq_refl)
    as (Hr & _ & He & Ha).
  split; [exact Hr|]. split; [exact He | exact Ha].
Defined.

(** What [readPosition] returns, from the device's answers: the live
    position when the live read succeeds in time, and otherwise the
    answer of [getLastKnownPositionAsync]. *)
Lemma readPosition_device dev s :
  fst (readPosition dev s)
  = match getCurrentPositionAsync dev with
    | settles (Async.Resolved position) => Async.Resolved (Some position)
    | _ => getLastKnownPositionAsync dev
    end.
Proof.
  unfold readPosition, getPositionWithTimeout, Async.try_catch, Async.bind, await.
  destruct (getCurrentPositionAsync dev) as [[p|e]|]; reflexivity.
Qed.

(** X22: a location is returned only when the permission was obtained,
    and its coordinates are those of a position the device gave: the
    live position when the live read succeeded in time, and only
    otherwise the last known position.  Reverse geocoding never changes
    them. *)
Theorem location_comes_from_the_device dev s l :
  fst (getCurrentLocation dev s) = Async.Resolved (Some l) ->
  permission_obtained dev = true
  /\ exists position,
       (getCurrentPositionAsync dev = settles (Async.Resolved position)
        \/ (forall live, getCurrentPositionAsync dev <> settles (Async.Resolved live))
           /\ getLastKnownPositionAsync dev = Async.Resolved (Some position))
       /\ Location.latitude l = coords_latitude position
       /\ Location.longitude l = coords_longitude position.
Proof.
  assert (D : forall s1 position,
             fst (readPosition dev s1) = Async.Resolved (Some position) ->
             getCurrentPositionAsync dev = settles (Async.Resolved position)
             \/ (forall live, getCurrentPositionAsync dev <> settles (Async.Resolved live))
                /\ getLastKnownPositionAsync dev = Async.Resolved (Some position)).
  { intros s1 position. rewrite readPosition_device.
    destruct (getCurrentPositionAsync dev) as [[p|e]|].
    - intros [= ->]. left. reflexivity.
    - intros H. right. split; [discriminate | exact H].
    - intros H. right. split; [discriminate | exact H]. }
  unfold permission_obtained.
  unfold getCurrentLocation, Async.bind, Async.try_catch, Async.modify, await.
  destruct (getForegroundPermissionsAsync dev) as [p|e0].
  - destruct (is_granted (status p)).
    + run_locate dev; [|discriminate].
      intros [= <-]. split; [reflexivity|]. exists pos0.
      split; [eapply D; exact Hpos | auto].
    + destruct (canAskAgain p).
      * match goal with |- context [requestPermission dev ?s1] =>
          destruct (requestPermission_spec dev s1) as (g & s1' & -> & Hu1 & He1 & _ & Hg)
        end.
        destruct g.
        -- run_locate dev; [|discriminate].
           intros [= <-]. split; [simpl; rewrite <- Hg; reflexivity|]. exists pos0.
           split; [eapply D; exact Hpos | auto].
        -- cbn. discriminate.
      * cbn. discriminate.
  - cbn -[errorMessage]. discriminate.
Qed.

Lemma location_comes_from_the_device_witness :
  let l := {| Location.latitude := 1%float; Location.longitude := 1%float;
              Location.address := Some "1 Main St"; Location.city := Some "Toronto";
              Location.state := Some "ON"; Location.zipCode := None |} in
  fst (getCurrentLocation Sample.liveDevice Sample.locationState) = Async.Resolved (Some l)
  /\ permission_obtained Sample.liveDevice = true
  /\ exists position,
       getCurrentPositionAsync Sample.liveDevice = settles (Async.Resolved position)
       /\ Location.latitude l = coords_latitude position
       /\ Location.longitude l = coords_longitude position.
Proof.
  intros l. split; [reflexivity|].
  destruct (location_comes_from_the_device Sample.liveDevice Sample.locationState l eq_refl)
    as (Hperm & position & [Hlive|[Hnone _]] & Hlat & Hlon).
  - split; [exact Hperm|]. exists position. auto.
  - destruct (Hnone _ eq_refl).
Defined.

(** X23: when the permission is obtained and the live position read does
    not succeed (it fails, or the 10 second timer fires first), the
    answer of [getLastKnownPositionAsync] decides: a last known position
    is returned and stored, with its coordinates; without one the request
    returns [null] with the error "Unable to retrieve location." and the
    stored location unchanged. *)
Theorem last_known_position_is_the_fallback dev s position :
  permission_obtained dev = true ->
  (forall live, getCurrentPositionAsync dev <> settles (Async.Resolved live)) ->
  getLastKnownPositionAsync dev = Async.Resolved position ->
  let out := getCurrentLocation dev s in
  match position with
  | Some p =>
      exists l, fst out = Async.Resolved (Some l)
                /\ userLocation (snd out) = Some l
                /\ Location.latitude l = coords_latitude p
                /\ Location.longitude l = coords_longitude p
  | None =>
      fst out = Async.Resolved None
      /\ userLocation (snd out) = userLocation s
      /\ error (snd out) = Some "Unable to retrieve location."
  end.
Proof.
  intros Hperm Hlive Hlast out.
  assert (Hread : forall s1, fst (readPosition dev s1) = Async.Resolved position).
  { intros s1. unfold readPosition, getPositionWithTimeout, Async.try_catch, Async.bind, await.
    destruct (getCurrentPositionAsync dev) as [[live|e]|]; simpl;
      [destruct (Hlive live); reflexivity | exact Hlast | exact Hlast]. }
  assert (L : forall s1,
            match position with
            | Some p =>
                exists l, fst (locate dev s1) = Async.Resolved (Some l)
                          /\ userLocation (snd (locate dev s1)) = Some l
                          /\ Location.latitude l = coords_latitude p
                          /\ Location.longitude l = coords_longitude p
            | None =>
                fst (locate dev s1)
                = Async.Rejected (JS.new_Error "Unable to retrieve location.")
                /\ userLocation (snd (locate dev s1)) = userLocation s1
            end).
  { intros s1. specialize (Hread s1).
    destruct (locate_cases dev s1)
      as [(pos0 & loc0 & Hpos & Hr & Hlat & Hlon & Hu' & _)
         |(err0 & Hr & Hu' & _ & [[Hnone ->]|Hrej])];
      rewrite Hread in *.
    - injection Hpos as ->. eauto 10.
    - injection Hnone as ->. auto.
    - discriminate. }
  unfold permission_obtained in Hperm.
  unfold out, getCurrentLocation, Async.bind, Async.try_catch, Async.modify, await.
  destruct (getForegroundPermissionsAsync dev) as [perm|e0]; [|discriminate].
  destruct (is_granted (status perm)).
  - match goal with |- context [locate dev ?s1] =>
      specialize (L s1); destruct (locate dev s1) as [r s2] end.
    destruct position as [p|]; cbn [fst snd] in L.
    + destruct L as (l & -> & Hu & Hlat & Hlon). cbn. eauto.
    + destruct L as [-> Hu]. cbn. auto.
  - simpl in Hperm. destruct (canAskAgain perm); [|discriminate]. simpl in Hperm.
    match goal with |- context [requestPermission dev ?s1] =>
      destruct (requestPermission_spec dev s1) as (g & s1' & -> & Hu1 & He1 & _ & Hg)
    end.
    rewrite Hperm in Hg. subst g.
    match goal with |- context [locate dev ?s1] =>
      specialize (L s1); destruct (locate dev s1) as [r s2] end.
    destruct position as [p|]; cbn [fst snd] in L.
    + destruct L as (l & -> & Hu & Hlat & Hlon). cbn. eauto.
    + destruct L as [-> Hu]. cbn. rewrite Hu, Hu1. auto.
Qed.

Lemma last_known_position_is_the_fallback_witness :
  let out := getCurrentLocation Sample.device Sample.locationState in
  exists l, fst out = Async.Resolved (Some l)
            /\ userLocation (snd out) = Some l
            /\ Location.latitude l = 43.65%float
            /\ Location.longitude l = (-79.38)%float.
Proof.
  refine (last_known_position_is_the_fallback Sample.device Sample.locationState
            (Some {| coords_latitude := 43.65%float; coords_longitude := (-79.38)%float |})
            eq_refl _ eq_refl).
  intros live. discriminate.
Defined.

End LocationRequestFacts.

(** ** SessionStore: the profile read and the failures of sign-in *)

Module SignInFacts.
Import Firebase AuthService Notions BackendFacts.

(** X24: [getUserData] never rejects and never writes: it returns a
    record exactly when the read meets no fault and the user has a
    document, and [null] both when the document is missing and when the
    read fails. *)
Theorem getUserData_never_rejects now uid b :
  let out := getUserData now uid b in
  exists o,
    fst out = Async.Resolved o
    /\ users (snd out) = users b
    /\ (is_Some o <-> next_fault b = None /\ is_Some (users b !! uid)).
Proof.
  intros out. unfold out, getUserData, Async.try_catch, getDoc_users, Async.bind, Async.get.
  destruct (next_fault b) as [e|] eqn:Hf.
  - destruct (request_fault (GetDoc "users" uid) b e Hf) as [fs ->]. simpl.
    eexists. split; [reflexivity|]. split; [reflexivity|].
    split; [intros [? ?]; discriminate | intros [? _]; discriminate].
  - destruct (request_ok (GetDoc "users" uid) b Hf) as [fs ->]. simpl.
    destruct (users b !! uid) as [data|]; simpl;
      (eexists; split; [reflexivity|]; split; [reflexivity|]).
    + split; eauto.
    + split; [intros [? ?]; discriminate | intros [_ [? ?]]; discriminate].
Qed.



(** X26: when the credentials are right but the profile read fails,
    [signIn] takes the profile for missing: if the following write
    succeeds, the stored profile is replaced by the default one (role
    "user", no phone, no photo), whatever it held, and the sign-in
    succeeds with role "user". *)
Theorem failed_profile_read_resets_the_profile now email password b a e :
  List.find (credentials_match email password) (accounts b) = Some a ->
  faults b = [None; Some e] ->
  let out := signIn now email password b in
  exists u,
    fst out = Async.Resolved u
    /\ User.role u = UserRole.USER
    /\ users (snd out) !! FirebaseUser.uid (account_user a)
       = Some (defaultUserDoc (account_user a) email (serverTime b)).
Proof.
  intros Hfind Hf out.
  unfold out, signIn, getUserData, getDoc_users, setDoc_users, signInWithEmailAndPassword,
    request, Async.try_catch, Async.bind, Async.get, Async.modify, Async.ret, console_log,
    Async.modify.
  rewrite Hf. cbn -[handleAuthError]. rewrite Hfind. cbn -[handleAuthError].
  eexists. split; [reflexivity|]. split; [reflexivity|]. apply lookup_insert_eq.
Qed.

Lemma failed_profile_read_resets_the_profile_witness :
  let b := Sample.backendWithProfile [None; Some Sample.networkError] in
  let out := signIn 1700000009000%float "a@b.com" "abcd1234" b in
  (UserDoc.role <$> users b !! "u1") = Some UserRole.HOMEOWNER
  /\ (UserDoc.role <$> users (snd out) !! "u1") = Some UserRole.USER.
Proof.
  intros b out.
  destruct (failed_profile_read_resets_the_profile 1700000009000%float "a@b.com" "abcd1234"
              b _ Sample.networkError eq_refl eq_refl) as (u & _ & _ & Hdoc).
  fold out in Hdoc. split; [reflexivity|].
  change (FirebaseUser.uid _) with "u1" in Hdoc. rewrite Hdoc. reflexivity.
Defined.

(** X27: when the credentials are right, the user has no profile and the
    write of the default profile fails, [signIn] rejects although the
    auth provider has signed the user in: the provider's current user
    stays set and no profile is stored. *)
Theorem failed_profile_write_keeps_the_auth_session now email password b a e :
  List.find (credentials_match email password) (accounts b) = Some a ->
  users b !! FirebaseUser.uid (account_user a) = None ->
  faults b = [None; None; Some e] ->
  let out := signIn now email password b in
  fst out = Async.Rejected (handleAuthError e)
  /\ currentUser (snd out) = Some (account_user a)
  /\ users (snd out) = users b.
Proof.
  intros Hfind Hnone Hf out.
  unfold out, signIn, getUserData, getDoc_users, setDoc_users, signInWithEmailAndPassword,
    request, Async.try_catch, Async.bind, Async.get, Async.modify, Async.ret, console_log,
    Async.modify.
  rewrite Hf. cbn -[handleAuthError]. rewrite Hfind. cbn -[handleAuthError].
  rewrite Hnone. cbn -[handleAuthError]. auto.
Qed.

Lemma failed_profile_write_keeps_the_auth_session_witness :
  let out := signIn 1700000009000%float "a@b.com" "abcd1234"
               (Sample.backend [None; None; Some Sample.networkError]) in
  fst out = Async.Rejected (JS.new_Error "Network error. Please check your connection.")
  /\ currentUser (snd out) = Some Sample.firebaseUser
  /\ users (snd out) = ∅.
Proof.
  exact (failed_profile_write_keeps_the_auth_session 1700000009000%float "a@b.com"
           "abcd1234" (Sample.backend [None; None; Some Sample.networkError]) _
           Sample.networkError eq_refl eq_refl eq_refl).
Defined.

(** X28: the context's [signIn] ends as the service's does, on the same
    backend state.  On success it stores the returned user and leaves
    [isLoading] set; on failure it rethrows the service's error, leaves
    the session user as it was and resets [isLoading]. *)
Theorem context_signIn_follows_the_service now email password b s :
  let out := AuthContext.signIn now email password (b, s) in
  fst (snd out) = snd (signIn now email password b)
  /\ match fst (signIn now email password b) with
     | Async.Resolved u =>
         fst out = Async.Resolved tt
         /\ AuthContext.user (snd (snd out)) = Some u
         /\ AuthContext.isLoading (snd (snd out)) = true
     | Async.Rejected e =>
         fst out = Async.Rejected e
         /\ AuthContext.user (snd (snd out)) = AuthContext.user s
         /\ AuthContext.isLoading (snd (snd out)) = false
     end.
Proof.
  intros out. unfold out, AuthContext.signIn, Async.bind, Async.try_catch,
    Async.on_fst, Async.modify_snd, Async.modify. cbn [fst snd].
  destruct (signIn now email password b) as [[u|e] b']; cbn; auto.
Qed.

End SignInFacts.
